(** * mycms: the block document model

    A shallow embedding of the server-side helpers of the CMS
    ([ensureUniqueId], [tryParseJson], [extractPlainTextFromBlocks],
    [migratePostsIfNeeded]) and of the editor's block operations
    ([createBlock], [handleDragEnd], the column-count handler of
    [ColumnsBlock]), followed by the properties of the design document
    that concern them.

    JavaScript values that reach this code are JSON values (they come out of
    [JSON.parse] of [data.json] or of a request body) or [undefined] (a
    property that is not there).  Objects are association lists in property
    order; the first binding of a key is the live one. *)

From Stdlib Require Import List String Ascii Bool Arith ZArith Lia Permutation.
From Stdlib Require Import DecimalString DecimalNat.
Import ListNotations.
Local Open Scope string_scope.
Local Open Scope list_scope.

Set Implicit Arguments.
Set Warnings "-register-all".

(** ** Completion records: a JavaScript call returns or throws *)

Inductive outcome (A : Type) : Type :=
| Ok (a : A)
| TypeError.
Arguments Ok {A} a.
Arguments TypeError {A}.

Definition bind {A B} (c : outcome A) (k : A -> outcome B) : outcome B :=
  match c with
  | Ok a => k a
  | TypeError => TypeError
  end.

Declare Scope js_scope.
Notation "x <- c ;; k" := (bind c (fun x => k))
  (at level 61, c at next level, right associativity) : js_scope.
Local Open Scope js_scope.

(** [array.forEach(f)] for a callback that updates an accumulator and may
    throw.  The callback comes before the [fix], so that a recursive function
    may pass itself as [f]. *)
Definition forEach {A S} (f : A -> S -> outcome S) : list A -> S -> outcome S :=
  fix each (l : list A) (s : S) : outcome S :=
    match l with
    | [] => Ok s
    | x :: r => s' <- f x s ;; each r s'
    end.

(** ** JSON values *)

Inductive JSON (number : Type) : Type :=
| JNull
| JBool (b : bool)
| JNum (n : number)
| JStr (s : string)
| JArr (elements : list (JSON number))
| JObj (members : list (string * JSON number)).
Arguments JNull {number}.
Arguments JBool {number} b.
Arguments JNum {number} n.
Arguments JStr {number} s.
Arguments JArr {number} elements.
Arguments JObj {number} members.

Section Objects.
Variable number : Type.

(** [o.k] on an ordinary object without an own property [k] is [undefined]
    ([None]); none of the names read by this program is on a prototype. *)
Fixpoint obj_get (k : string) (o : list (string * JSON number))
  : option (JSON number) :=
  match o with
  | [] => None
  | (k', v) :: r => if String.eqb k k' then Some v else obj_get k r
  end.

(** [o.k = v]: an existing property keeps its place, a new one goes last. *)
Fixpoint obj_set (k : string) (v : JSON number) (o : list (string * JSON number))
  : list (string * JSON number) :=
  match o with
  | [] => [(k, v)]
  | (k', v') :: r =>
      if String.eqb k k' then (k', v) :: r else (k', v') :: obj_set k v r
  end.

(** [obj_get] in continuation form, with the continuation before the [fix]. *)
Definition obj_case {B} (k : string) (absent : B) (present : JSON number -> B)
  : list (string * JSON number) -> B :=
  fix find (o : list (string * JSON number)) : B :=
    match o with
    | [] => absent
    | (k', v) :: r => if String.eqb k k' then present v else find r
    end.

Definition isArray (v : JSON number) : bool :=
  match v with JArr _ => true | _ => false end.

End Objects.

(** What the host gives: IEEE doubles with their [ToBoolean] and [ToString],
    numeric literals, and [JSON.parse] ([None] when it throws SyntaxError). *)
Class Host : Type := {
  number : Type;
  Number_ToBoolean : number -> bool;
  Number_toString : number -> string;
  Number_ofNat : nat -> number;
  JSON_parse : string -> option (JSON number)
}.

Section Values.
Context {H : Host}.

Definition value : Type := JSON number.
Definition object : Type := list (string * value).

(** [ToBoolean]. *)
Definition ToBoolean (v : value) : bool :=
  match v with
  | JNull => false
  | JBool b => b
  | JNum n => Number_ToBoolean n
  | JStr s => negb (String.eqb s "")
  | JArr _ => true
  | JObj _ => true
  end.

(** [String(v)].  An array is joined with commas, [null] entries giving the
    empty string.  An object without an own [toString] property is
    ["[object Object]"]; with one (never callable in parsed JSON) the
    conversion to a primitive throws. *)
Fixpoint ToString (v : value) : outcome string :=
  match v with
  | JNull => Ok "null"
  | JBool true => Ok "true"
  | JBool false => Ok "false"
  | JNum n => Ok (Number_toString n)
  | JStr s => Ok s
  | JArr l =>
      parts <- forEach (fun x acc =>
                 s <- match x with JNull => Ok "" | _ => ToString x end ;;
                 Ok (acc ++ [s])) l [] ;;
      Ok (String.concat "," parts)
  | JObj o =>
      match obj_get "toString" o with
      | Some _ => TypeError
      | None => Ok "[object Object]"
      end
  end.

(** [String(x)] where [x] may be [undefined]. *)
Definition String_ (x : option value) : outcome string :=
  match x with
  | None => Ok "undefined"
  | Some v => ToString v
  end.

(** [String(n)] for a non-negative integer [n] (below [2^53], where the
    doubles are exact): an array index as a property name, the counter of
    [ensureUniqueId] in its template literal. *)
Definition decimal (n : nat) : string := NilZero.string_of_uint (Nat.to_uint n).

Fixpoint index_keys (n : nat) (l : list value) : object :=
  match l with
  | [] => []
  | v :: r => (decimal n, v) :: index_keys (S n) r
  end.

Fixpoint chars (s : string) : list value :=
  match s with
  | EmptyString => []
  | String c r => JStr (String c EmptyString) :: chars r
  end.

(** [{ ...v }]: the own enumerable properties of [v]. *)
Definition spread (v : value) : object :=
  match v with
  | JObj o => o
  | JArr l => index_keys 0 l
  | JStr s => index_keys 0 (chars s)
  | _ => []
  end.

(** ** Strings: [trim] and [startsWith] *)

(** White space and line terminators among the code units below 256. *)
Definition isWhiteSpace (c : ascii) : bool :=
  let n := nat_of_ascii c in
  (Nat.leb 9 n && Nat.leb n 13) || Nat.eqb n 32 || Nat.eqb n 160.

Fixpoint trimStart (s : string) : string :=
  match s with
  | EmptyString => EmptyString
  | String c r => if isWhiteSpace c then trimStart r else s
  end.

Fixpoint trimEnd (s : string) : string :=
  match s with
  | EmptyString => EmptyString
  | String c r =>
      match trimEnd r with
      | EmptyString => if isWhiteSpace c then EmptyString else String c EmptyString
      | r' => String c r'
      end
  end.

Definition trim (s : string) : string := trimEnd (trimStart s).

Definition startsWith (s p : string) : bool := String.prefix p s.

(** ** Server: parsing, text extraction and migration *)

(** [null] also when [JSON.parse] throws. *)
Definition tryParseJson (str : string) : value :=
  match JSON_parse str with
  | Some v => v
  | None => JNull
  end.

(** [node.type === t] *)
Definition type_is (o : object) (t : string) : bool :=
  match obj_get "type" o with
  | Some (JStr s) => String.eqb s t
  | _ => false
  end.

(** The closure [walk] of [extractPlainTextFromBlocks]; [lines] is the array
    it pushes to. *)
Fixpoint walk (node : value) (lines : list string) : outcome (list string) :=
  if negb (ToBoolean node) then Ok lines else
  match node with
  | JArr l => forEach walk l lines
  | JObj o =>
      if type_is o "heading" || type_is o "paragraph" then
        match obj_get "content" o with
        | Some c =>
            if ToBoolean c then s <- ToString c ;; Ok (lines ++ [s])
            else Ok lines
        | None => Ok lines
        end
      else if type_is o "columns" then
        obj_case "children" (Ok lines)
          (fun ch =>
             match ch with
             | JArr cols =>
                 forEach (fun col ls =>
                            match col with
                            | JArr bl => forEach walk bl ls
                            | _ => Ok ls
                            end) cols lines
             | _ => Ok lines
             end) o
      else if type_is o "grid" then
        obj_case "children" (Ok lines)
          (fun ch =>
             match ch with
             | JArr l => forEach walk l lines
             | _ => Ok lines
             end) o
      else Ok lines
  | _ => Ok lines
  end.

Definition newline : string := String "010" EmptyString.

Definition extractPlainTextFromBlocks (blocks : value) : outcome string :=
  lines <- walk blocks [] ;;
  Ok (String.concat newline lines).

(** [typeof post.content === "string" && post.content.trim().startsWith("[")] *)
Definition looksLikeArray (content : option value) : bool :=
  match content with
  | Some (JStr s) => startsWith (trim s) "["
  | _ => false
  end.

(** The body of the [for] loop of [migratePostsIfNeeded], on one copied post;
    the boolean tells whether the body assigned [changed = true]. *)
Definition migratePost (post : object) : outcome (bool * object) :=
  st <-
    match obj_get "blocks" post with
    | Some (JStr s) =>
        let parsed := tryParseJson s in
        if isArray parsed then
          let post := obj_set "blocks" parsed post in
          if looksLikeArray (obj_get "content" post) then
            text <- extractPlainTextFromBlocks parsed ;;
            Ok (true, obj_set "content" (JStr text) post)
          else Ok (true, post)
        else Ok (false, post)
    | _ => Ok (false, post)
    end ;;
  let (changed, post) := st in
  match obj_get "blocks" post, obj_get "content" post with
  | Some (JArr _), _ => Ok (changed, post)
  | _, Some (JStr s) =>
      if startsWith (trim s) "[" then
        let parsed := tryParseJson s in
        if isArray parsed then
          let post := obj_set "blocks" parsed post in
          text <- extractPlainTextFromBlocks parsed ;;
          Ok (true, obj_set "content" (JStr text) post)
        else Ok (changed, post)
      else Ok (changed, post)
  | _, _ => Ok (changed, post)
  end.

(** The loop over [out.posts], threading [changed]. *)
Fixpoint migrateLoop (posts : list object) (changed : bool)
  : outcome (bool * list object) :=
  match posts with
  | [] => Ok (changed, [])
  | post :: rest =>
      r <- migratePost post ;;
      let (c, post') := r in
      r' <- migrateLoop rest (changed || c) ;;
      let (changed', rest') := r' in
      Ok (changed', post' :: rest')
  end.

(** [Array.isArray(out.posts) ? out.posts.map((p) => ({ ...p })) : []] *)
Definition copyPosts (out : object) : list object :=
  match obj_get "posts" out with
  | Some (JArr ps) => map spread ps
  | _ => []
  end.

(** Returns [{ changed, data: out }] as a pair. *)
Definition migratePostsIfNeeded (data : value) : outcome (bool * value) :=
  let out := spread data in
  r <- migrateLoop (copyPosts out) false ;;
  let (changed, posts) := r in
  Ok (changed, JObj (obj_set "posts" (JArr (map (@JObj number) posts)) out)).

(** ** Server: [ensureUniqueId] *)

(** [p.id] for an element [p] of [posts]: reading a property of [null]
    throws, a primitive or an array has no [id]. *)
Definition post_id (p : value) : outcome (option value) :=
  match p with
  | JNull => TypeError
  | JObj o => Ok (obj_get "id" o)
  | _ => Ok None
  end.

(** [array.some(f)], stopping at the first element that satisfies [f]. *)
Fixpoint some {A} (f : A -> outcome bool) (l : list A) : outcome bool :=
  match l with
  | [] => Ok false
  | x :: r => b <- f x ;; if b then Ok true else some f r
  end.

(** [hasId(x)] for a string [x]. *)
Definition hasId (posts : list value) (x : string) : outcome bool :=
  some (fun p => i <- post_id p ;; s <- String_ i ;; Ok (String.eqb s x)) posts.

Definition candidate (baseId : string) (n : nat) : string :=
  baseId ++ "-" ++ decimal n.

(** The [while] loop, from the state [(id, n)]; [None] when [fuel] iterations
    did not reach the [return]. *)
Fixpoint ensureUniqueId_loop (fuel : nat) (baseId : string) (posts : list value)
  (id : string) (n : nat) : option (outcome string) :=
  match fuel with
  | O => None
  | S fuel' =>
      match hasId posts id with
      | TypeError => Some TypeError
      | Ok true => ensureUniqueId_loop fuel' baseId posts (candidate baseId n) (S n)
      | Ok false => Some (Ok id)
      end
  end.

Definition ensureUniqueId (fuel : nat) (baseId : string) (posts : list value)
  : option (outcome string) :=
  ensureUniqueId_loop fuel baseId posts baseId 2.

(** ** Editor: the block factory *)

(** [createBlock(type)]; [fresh] is the value of [Date.now() + Math.random()]
    at the call.  No path of the function throws. *)
Definition createBlock (fresh : number) (type : string) : outcome object :=
  let base := [("id", JNum fresh); ("type", JStr type); ("size", JStr "full")] in
  if String.eqb type "heading" then
    Ok (obj_set "level" (JNum (Number_ofNat 2)) (obj_set "content" (JStr "") base))
  else if String.eqb type "paragraph" then
    Ok (obj_set "content" (JStr "") base)
  else if String.eqb type "image" then
    Ok (obj_set "alt" (JStr "") (obj_set "url" (JStr "") base))
  else if String.eqb type "columns" then
    Ok (obj_set "children" (JArr [JArr []; JArr []])
          (obj_set "columns" (JNum (Number_ofNat 2)) base))
  else if String.eqb type "grid" then
    Ok (obj_set "children" (JArr [])
          (obj_set "gap" (JNum (Number_ofNat 16))
             (obj_set "cols" (JNum (Number_ofNat 3)) base)))
  else Ok base.

(** The [type] tags of [blockTypes], the only arguments the editor passes. *)
Definition blockTypes : list string :=
  ["heading"; "paragraph"; "image"; "columns"; "grid"].

(** ** Editor: the column-count selector of [ColumnsBlock] *)

(** [v[i]] for an index [i]. *)
Definition js_index (v : option value) (i : nat) : outcome (option value) :=
  match v with
  | None => TypeError
  | Some JNull => TypeError
  | Some (JArr l) => Ok (nth_error l i)
  | Some (JStr s) => Ok (nth_error (chars s) i)
  | Some (JObj o) => Ok (obj_get (decimal i) o)
  | Some _ => Ok None
  end.

(** [x || []] *)
Definition orEmpty (x : option value) : value :=
  match x with
  | Some v => if ToBoolean v then v else JArr []
  | None => JArr []
  end.

(** The [onChange] handler of the selector, for [+e.target.value = cols];
    the result is the block handed to [onUpdate]. *)
Definition ColumnsBlock_onChange (block : object) (cols : nat) : outcome object :=
  children <-
    forEach (fun i acc =>
               x <- js_index (obj_get "children" block) i ;;
               Ok (acc ++ [orEmpty x]))
            (seq 0 cols) [] ;;
  Ok (obj_set "children" (JArr children)
        (obj_set "columns" (JNum (Number_ofNat cols)) block)).

(** ** Vocabulary of the properties *)

(** The posts of a stored document, as [migratePostsIfNeeded] sees them. *)
Definition posts_of (data : value) : list value :=
  match obj_get "posts" (spread data) with
  | Some (JArr ps) => ps
  | _ => []
  end.

(** An object that [walk] treats as a heading or a paragraph with the string
    [c] as its content. *)
Definition text_node (o : object) (c : string) : Prop :=
  (type_is o "heading" || type_is o "paragraph") = true /\
  obj_get "content" o = Some (JStr c).

Definition nonempty (contents : list string) : list string :=
  filter (fun c => negb (String.eqb c "")) contents.

(** The string forms [String(p.id)] of the ids of the stored posts. *)
Fixpoint post_ids (posts : list value) : outcome (list string) :=
  match posts with
  | [] => Ok []
  | p :: r =>
      i <- post_id p ;; s <- String_ i ;; ids <- post_ids r ;; Ok (s :: ids)
  end.

(** The ids that the loop tries, in order: [baseId], then [baseId-2],
    [baseId-3], ... *)
Definition attempt (baseId : string) (k : nat) : string :=
  match k with
  | O => baseId
  | S m => candidate baseId (2 + m)
  end.

(** A text between double quotes. *)
Definition quoted (s : string) : string :=
  String "034" (s ++ String "034" EmptyString).

(** The [blocks] text of end-to-end scenario 1. *)
Definition scenario1_blocks : string :=
  "[{" ++ quoted "id" ++ ":1," ++ quoted "type" ++ ":" ++ quoted "paragraph"
       ++ "," ++ quoted "content" ++ ":" ++ quoted "hi" ++ "}]".

(** The block of end-to-end scenario 1, for the number [one] that the literal
    [1] denotes. *)
Definition scenario1_block (one : number) : value :=
  JObj [("id", JNum one); ("type", JStr "paragraph"); ("content", JStr "hi")].

Definition scenario1_post (content : string) : value :=
  JObj [("blocks", JStr scenario1_blocks); ("content", JStr content)].

End Values.

(** ** Editor: reordering by drag and drop *)

(** [Array.prototype.splice(start, deleteCount, ...items)]: the removed
    elements and the array afterwards. *)
Definition splice {T} (arr : list T) (start deleteCount : Z) (items : list T)
  : list T * list T :=
  let len := Z.of_nat (List.length arr) in
  let actualStart :=
    if (start <? 0)%Z then Z.max (len + start) 0 else Z.min start len in
  let actualDeleteCount := Z.min (Z.max deleteCount 0) (len - actualStart) in
  let a := Z.to_nat actualStart in
  let d := Z.to_nat actualDeleteCount in
  (firstn d (skipn a arr), firstn a arr ++ items ++ skipn (a + d) arr).

(** [arrayMove] of [@dnd-kit/sortable], which the editor imports:
<<
    const newArray = array.slice();
    newArray.splice(to < 0 ? newArray.length + to : to, 0,
                    newArray.splice(from, 1)[0]);
    return newArray;
>>
    The first argument of the outer [splice] is evaluated before the inner
    [splice] shortens the array; [removed[0]] of an empty [removed] is
    [undefined]. *)
Definition arrayMove {T} (undefined : T) (array : list T) (from to : Z) : list T :=
  let newArray := array in
  let start := if (to <? 0)%Z then (Z.of_nat (List.length newArray) + to)%Z else to in
  let (removed, newArray) := splice newArray from 1 [] in
  snd (splice newArray start 0 [nth 0 removed undefined]).

(** [array.findIndex(p)]: the first index that satisfies [p], or [-1]. *)
Fixpoint findIndex {T} (p : T -> bool) (l : list T) : Z :=
  match l with
  | [] => (-1)%Z
  | x :: r =>
      if p x then 0%Z
      else let i := findIndex p r in
           if (i <? 0)%Z then (-1)%Z else (i + 1)%Z
  end.

(** Taking out the element at an index, and putting one in at an index. *)
Definition removeAt {T} (i : nat) (l : list T) : list T :=
  firstn i l ++ skipn (S i) l.

Definition insertAt {T} (j : nat) (x : T) (l : list T) : list T :=
  firstn j l ++ x :: skipn j l.

(** The index that [splice] makes of an argument counted from the end. *)
Definition wrap (len : nat) (z : Z) : nat :=
  Z.to_nat (if (z <? 0)%Z then Z.of_nat len + z else z)%Z.

(** [i] is the first index of [l] whose element satisfies [p]. *)
Definition first_index {T} (p : T -> bool) (l : list T) (i : nat) : Prop :=
  (exists x, nth_error l i = Some x /\ p x = true) /\
  forall k y, k < i -> nth_error l k = Some y -> p y = false.

Section Drag.
Variables Block Id : Type.
(** [b.id] and [===] on identifiers (strings or numbers). *)
Variable block_id : Block -> Id.
Variable Id_eqb : Id -> Id -> bool.

(** [handleDragEnd(event, blocksList, setBlocksList)] with
    [event.active.id = active]; [over] is [None] when [event.over] is [null]:
    then [active.id !== over?.id] holds and reading [over.id] throws.
    The result is the list held by the state afterwards: the argument of
    [setBlocksList], or [blocksList] itself when the setter is not called.
    Its entries are blocks or [undefined] ([None]). *)
Definition handleDragEnd (active : Id) (over : option Id) (blocksList : list Block)
  : outcome (list (option Block)) :=
  match over with
  | None => TypeError
  | Some target =>
      if negb (Id_eqb active target) then
        let oldIndex := findIndex (fun b => Id_eqb (block_id b) active) blocksList in
        let newIndex := findIndex (fun b => Id_eqb (block_id b) target) blocksList in
        Ok (arrayMove None (map Some blocksList) oldIndex newIndex)
      else Ok (map Some blocksList)
  end.

(** [i] is the position of the first block of [l] whose id is [id]. *)
Definition position (l : list Block) (id : Id) (i : nat) : Prop :=
  first_index (fun b => Id_eqb (block_id b) id) l i.

End Drag.

(** ** Server: the request handlers

    A handler reads [data] (the parsed contents of [data.json]), the request
    and what the host supplies at the call, and gives the document it saves
    together with its response.  A thrown error ends in a 500 response and
    nothing is saved. *)

(** What a handler that looks a record up answers: 404, or its result. *)
Inductive response (A : Type) : Type :=
| NotFound
| Done (a : A).
Arguments NotFound {A}.
Arguments Done {A} a.

Section Handlers.
Context {H : Host}.

(** [parseInt(v)]; [None] is [NaN].  It converts its argument to a string
    first, which may throw. *)
Variable parseInt : value -> outcome (option number).

(** [===] on two numbers. *)
Variable Number_eqb : number -> number -> bool.

(** [v.k] for one of the names this program reads ([blocks], [content],
    [id], [title], [image], [sectionId], [posts], [sections]): none of them
    is on a prototype, so only an object can have it; [null.k] throws. *)
Definition member (v : value) (k : string) : outcome (option value) :=
  match v with
  | JNull => TypeError
  | JObj o => Ok (obj_get k o)
  | _ => Ok None
  end.

(** [ToBoolean] of a value that may be [undefined]. *)
Definition truthy (x : option value) : bool :=
  match x with
  | Some v => ToBoolean v
  | None => false
  end.

(** [body.k] once [body] is known to be truthy. *)
Definition prop (body : option value) (k : string) : option value :=
  match body with
  | Some (JObj o) => obj_get k o
  | _ => None
  end.

(** Returns [{ blocks, plain }]; [null] is [JNull] for [blocks] and [None]
    for [plain]. *)
Definition parseBlocksAndPlainTextFromBody (body : option value)
  : outcome (value * option string) :=
  let blocks :=
    if truthy body && truthy (prop body "blocks") then
      match prop body "blocks" with
      | Some (JStr s) => tryParseJson s
      | Some (JArr l) => JArr l
      | _ => JNull
      end
    else JNull in
  let blocks :=
    if negb (ToBoolean blocks) && truthy body then
      match prop body "content" with
      | Some (JStr s) =>
          let parsed := tryParseJson s in
          if isArray parsed then parsed else blocks
      | _ => blocks
      end
    else blocks in
  if ToBoolean blocks then
    plain <- extractPlainTextFromBlocks blocks ;;
    Ok (blocks, Some plain)
  else Ok (JNull, None).

(** [a || b] *)
Definition or_else (a : option value) (b : option value) : option value :=
  if truthy a then a else b.

(** A property whose value may be [undefined]: such a property is left out
    when the object is written to [data.json] or to the response, and it can
    only arise here for a name the object did not have. *)
Definition obj_set_opt (k : string) (x : option value) (o : object) : object :=
  match x with
  | Some v => obj_set k v o
  | None => o
  end.

(** [req.file ? `/uploads/${req.file.filename}` : otherwise] *)
Definition uploaded (file : option string) (otherwise : option value)
  : option value :=
  match file with
  | Some filename => Some (JStr ("/uploads/" ++ filename))
  | None => otherwise
  end.

(** A number as it is stored: [NaN] is written as [null]. *)
Definition stored_number (n : option number) : value :=
  match n with
  | Some n => JNum n
  | None => JNull
  end.

(** [typeof req.body.content === "string" ? req.body.content : otherwise] *)
Definition content_or (content otherwise : option value) : option value :=
  match content with
  | Some (JStr s) => Some (JStr s)
  | _ => otherwise
  end.

(** [data.posts || []] as the argument of [ensureUniqueId]: [posts.some]
    exists only on an array. *)
Definition posts_or_empty (posts : option value) : outcome (list value) :=
  if truthy posts then
    match posts with
    | Some (JArr l) => Ok l
    | _ => TypeError
    end
  else Ok [].

(** [POST /api/posts].  [file] is the name of the uploaded file, if any;
    [defaultId] is [formatDefaultId()] and [date] the date of the call.  The
    result is the saved document and the new post of the response; [None]
    when [ensureUniqueId] ran out of [fuel]. *)
Definition post_api_posts (fuel : nat) (data body : value)
  (file : option string) (defaultId date : string)
  : option (outcome (value * object)) :=
  match
    (parsed <- parseBlocksAndPlainTextFromBody (Some body) ;;
     idv <- member body "id" ;;
     providedIdRaw <-
       match idv with
       | None => Ok ""
       | Some _ => s <- String_ idv ;; Ok (trim s)
       end ;;
     posts <- member data "posts" ;;
     existing <- posts_or_empty posts ;;
     Ok (parsed, providedIdRaw, posts, existing))
  with
  | TypeError => Some TypeError
  | Ok (parsed, providedIdRaw, posts, existing) =>
      let baseId :=
        if String.eqb providedIdRaw "" then defaultId else providedIdRaw in
      match ensureUniqueId fuel baseId existing with
      | None => None
      | Some TypeError => Some TypeError
      | Some (Ok id) =>
          Some
            (title <- member body "title" ;;
             content <- member body "content" ;;
             sectionId <- member body "sectionId" ;;
             n <- match sectionId with
                  | Some v => parseInt v
                  | None => Ok None
                  end ;;
             let newPost :=
               [("id", JStr id);
                ("title", match or_else title (Some (JStr "")) with
                          | Some v => v
                          | None => JStr ""
                          end);
                ("content", match snd parsed with
                            | Some plain => JStr plain
                            | None =>
                                match content_or content None with
                                | Some v => v
                                | None => JStr ""
                                end
                            end);
                ("blocks", fst parsed);
                ("image", match uploaded file None with
                          | Some v => v
                          | None => JNull
                          end);
                ("date", JStr date);
                ("sectionId",
                 JNum match n with
                      | Some n => if Number_ToBoolean n then n else Number_ofNat 1
                      | None => Number_ofNat 1
                      end)] in
             match data, posts with
             | JObj o, Some (JArr l) =>
                 Ok (JObj (obj_set "posts" (JArr (l ++ [JObj newPost])) o),
                     newPost)
             | _, _ => TypeError
             end)
      end
  end.

(** [array.findIndex(p)] for a callback that may throw. *)
Fixpoint findIndexM {A} (p : A -> outcome bool) (l : list A) : outcome Z :=
  match l with
  | [] => Ok (-1)%Z
  | x :: r =>
      b <- p x ;;
      if b then Ok 0%Z
      else i <- findIndexM p r ;;
           Ok (if (i <? 0)%Z then (-1)%Z else (i + 1)%Z)
  end.

(** [data.posts.findIndex(p => String(p.id) === postId)] *)
Definition findPost (data : value) (postId : string)
  : outcome (list value * Z) :=
  posts <- member data "posts" ;;
  match posts with
  | Some (JArr l) =>
      i <- findIndexM (fun p => idv <- member p "id" ;;
                                s <- String_ idv ;;
                                Ok (String.eqb s postId)) l ;;
      Ok (l, i)
  | _ => TypeError
  end.

(** [DELETE /api/posts/:id].  The result is the saved document and the
    [image] of the deleted post when the handler goes on to look for that
    file and unlink it. *)
Definition delete_api_posts (data : value) (postId : string)
  : outcome (response (value * option string)) :=
  found <- findPost data postId ;;
  let (l, postIndex) := found in
  if (postIndex =? -1)%Z then Ok NotFound
  else
    match nth_error l (Z.to_nat postIndex), data with
    | Some post, JObj o =>
        image <- member post "image" ;;
        unlink <-
          (if truthy image then
             match image with
             | Some (JStr path) => Ok (Some path)
             | _ => TypeError
             end
           else Ok None) ;;
        Ok (Done (JObj (obj_set "posts"
                          (JArr (snd (splice l postIndex 1 []))) o),
                  unlink))
    | _, _ => TypeError
    end.

(** [PUT /api/posts/:id].  The result is the saved document and the updated
    post of the response. *)
Definition put_api_posts (data : value) (postId : string) (body : value)
  (file : option string) : outcome (response (value * object)) :=
  found <- findPost data postId ;;
  let (l, postIndex) := found in
  if (postIndex =? -1)%Z then Ok NotFound
  else
    match nth_error l (Z.to_nat postIndex), data with
    | Some existingPost, JObj o =>
        parsed <- parseBlocksAndPlainTextFromBody (Some body) ;;
        title <- member body "title" ;;
        oldTitle <- member existingPost "title" ;;
        content <- member body "content" ;;
        oldContent <- member existingPost "content" ;;
        oldBlocks <- member existingPost "blocks" ;;
        sectionId <- member body "sectionId" ;;
        newSection <-
          (if truthy sectionId then
             match sectionId with
             | Some v => n <- parseInt v ;; Ok (Some (stored_number n))
             | None => Ok None
             end
           else member existingPost "sectionId") ;;
        oldImage <- member existingPost "image" ;;
        let post :=
          obj_set_opt "image" (uploaded file oldImage)
            (obj_set_opt "sectionId" newSection
               (obj_set "blocks"
                  (match fst parsed with
                   | JNull => match or_else oldBlocks (Some JNull) with
                              | Some v => v
                              | None => JNull
                              end
                   | blocks => blocks
                   end)
                  (obj_set_opt "content"
                     (match snd parsed with
                      | Some plain => Some (JStr plain)
                      | None => content_or content oldContent
                      end)
                     (obj_set_opt "title" (or_else title oldTitle)
                        (spread existingPost))))) in
        Ok (Done (JObj (obj_set "posts"
                          (JArr (firstn (Z.to_nat postIndex) l ++ JObj post
                                   :: skipn (S (Z.to_nat postIndex)) l)) o),
                  post))
    | _, _ => TypeError
    end.

(** [array.filter(p)] for a callback that may throw. *)
Fixpoint filterM {A} (p : A -> outcome bool) (l : list A) : outcome (list A) :=
  match l with
  | [] => Ok []
  | x :: r =>
      b <- p x ;;
      r' <- filterM p r ;;
      Ok (if b then x :: r' else r')
  end.

(** [x === n] for a number [n] that may be [NaN]. *)
Definition is_number (x : option value) (n : option number) : bool :=
  match x, n with
  | Some (JNum m), Some n => Number_eqb m n
  | _, _ => false
  end.

(** [v.filter(...)] where [v] must be an array. *)
Definition filter_array (v : option value) (p : value -> outcome bool)
  : outcome (list value) :=
  match v with
  | Some (JArr l) => filterM p l
  | _ => TypeError
  end.

(** [DELETE /api/sections/:id], with [sectionId = parseInt(req.params.id)];
    the result is the saved document. *)
Definition delete_api_sections (data : value) (sectionId : option number)
  : outcome value :=
  sections <- member data "sections" ;;
  sections' <- filter_array sections
                 (fun s => i <- member s "id" ;;
                           Ok (negb (is_number i sectionId))) ;;
  posts <- member data "posts" ;;
  posts' <- filter_array posts
              (fun p => i <- member p "sectionId" ;;
                        Ok (negb (is_number i sectionId))) ;;
  match data with
  | JObj o =>
      Ok (JObj (obj_set "posts" (JArr posts')
                  (obj_set "sections" (JArr sections') o)))
  | _ => TypeError
  end.

(** [GET /api/posts], with [query = req.query.sectionId].  The result is the
    document that is saved, if one is, and the posts of the response. *)
Definition get_api_posts (current : value) (query : option value)
  : outcome (option value * list value) :=
  r <- migratePostsIfNeeded current ;;
  let (changed, data) := r in
  posts <- member data "posts" ;;
  all <- (if truthy posts then
            match posts with
            | Some (JArr l) => Ok l
            | _ => TypeError
            end
          else Ok []) ;;
  selected <-
    (match query with
     | Some q =>
         if ToBoolean q then
           filterM (fun p => i <- member p "sectionId" ;;
                             n <- parseInt q ;;
                             Ok (is_number i n)) all
         else Ok all
     | None => Ok all
     end) ;;
  Ok (if changed then Some data else None, selected).

End Handlers.

(** ** Client: [API_CONFIG] *)

(** Where the configuration runs: in a browser at [window.location.hostname],
    or under Node with [process.env.API_BASE_URL] set or not. *)
Inductive environment : Type :=
| Browser (hostname : string)
| Node (API_BASE_URL : option string).

Definition PRODUCTION_URL : string := "https://mycms-tycq.onrender.com".
Definition DEVELOPMENT_URL : string := "http://localhost:4000".

Definition getBaseURL (env : environment) : string :=
  match env with
  | Browser hostname =>
      if String.eqb hostname "localhost" || String.eqb hostname "127.0.0.1"
      then DEVELOPMENT_URL
      else PRODUCTION_URL
  | Node (Some url) => if String.eqb url "" then DEVELOPMENT_URL else url
  | Node None => DEVELOPMENT_URL
  end.

(** The five prefixes that [getImageURL] takes for a complete URL. *)
Definition isCompleteURL (url : string) : bool :=
  startsWith url "http://" || startsWith url "https://" ||
  startsWith url "data:" || startsWith url "blob:" || startsWith url "//".

Section Config.
Context {H : Host}.

(** [API_CONFIG.getImageURL(url)]; a truthy [url] that is not a string has no
    [startsWith]. *)
Definition getImageURL (env : environment) (url : option value)
  : outcome string :=
  if negb (truthy url) then Ok ""
  else
    match url with
    | Some (JStr s) =>
        if isCompleteURL s then Ok s
        else if startsWith s "/uploads/" then Ok (getBaseURL env ++ s)%string
        else Ok s
    | _ => TypeError
    end.

(** The configuration of the admin bundle: [getBaseURL] reads the host name
    without asking whether there is a window; [getImageURL] is the same. *)
Definition admin_getBaseURL (hostname : string) : string :=
  if String.eqb hostname "localhost" || String.eqb hostname "127.0.0.1"
  then DEVELOPMENT_URL
  else PRODUCTION_URL.

Definition admin_getImageURL (hostname : string) (url : option value)
  : outcome string :=
  if negb (truthy url) then Ok ""
  else
    match url with
    | Some (JStr s) =>
        if isCompleteURL s then Ok s
        else if startsWith s "/uploads/" then Ok (admin_getBaseURL hostname ++ s)%string
        else Ok s
    | _ => TypeError
    end.

End Config.

(** ** Editor: updating and deleting in a block list *)

(** [array[i] = v] on a copy: inside the array it replaces, at its end it
    appends; further out it would leave holes, which a list does not show
    ([None]). *)
Definition array_write {T} (l : list T) (i : nat) (v : T) : option (list T) :=
  if Nat.leb i (List.length l)
  then Some (firstn i l ++ v :: skipn (S i) l)
  else None.

Section BlockLists.
Variables Block Id : Type.
Variable block_id : Block -> Id.
Variable Id_eqb : Id -> Id -> bool.

(** The argument that [updateBlock(id, updated)] gives to [setBlocksList]. *)
Definition updateBlock (blocksList : list Block) (id : Id) (updated : Block)
  : list Block :=
  map (fun b => if Id_eqb (block_id b) id then updated else b) blocksList.

(** The argument that [deleteBlock(id)] gives to [setBlocksList]. *)
Definition deleteBlock (blocksList : list Block) (id : Id) : list Block :=
  filter (fun b => negb (Id_eqb (block_id b) id)) blocksList.

(** The setter that [GridBlock] hands to the one-block list of its child
    number [i]: the argument it gives to [updateChildren] for the list
    [newChildren] it receives. *)
Definition GridBlock_setChild (children : list Block) (i : nat)
  (newChildren : list Block) : option (list Block) :=
  match newChildren with
  | [] => Some (snd (splice children (Z.of_nat i) 1 []))
  | first :: _ => array_write children i first
  end.

End BlockLists.

Section ColumnsEditing.
Context {H : Host}.

(** [[...v]]: only an array or a string can be spread into an array. *)
Definition iterate (v : option value) : outcome (list value) :=
  match v with
  | Some (JArr l) => Ok l
  | Some (JStr s) => Ok (chars s)
  | _ => TypeError
  end.

(** [updateColumn(idx, newChildren)] of [ColumnsBlock]: the block handed to
    [onUpdate]. *)
Definition ColumnsBlock_updateColumn (block : object) (idx : nat)
  (newChildren : value) : option (outcome object) :=
  match iterate (obj_get "children" block) with
  | TypeError => Some TypeError
  | Ok children =>
      match array_write children idx newChildren with
      | Some children' => Some (Ok (obj_set "children" (JArr children') block))
      | None => None
      end
  end.

(** [addToColumn(idx, type)] of [ColumnsBlock], with the id [fresh] for the
    new block. *)
Definition ColumnsBlock_addToColumn (block : object) (idx : nat)
  (type : string) (fresh : number) : option (outcome object) :=
  match
    (children <- iterate (obj_get "children" block) ;;
     column <- iterate (nth_error children idx) ;;
     created <- createBlock fresh type ;;
     Ok (children, column ++ [JObj created]))
  with
  | TypeError => Some TypeError
  | Ok (children, column') =>
      match array_write children idx (JArr column') with
      | Some children' => Some (Ok (obj_set "children" (JArr children') block))
      | None => None
      end
  end.


End ColumnsEditing.

(** ** Vocabulary of the further properties *)

Section MoreVocabulary.
Context {H : Host}.

(** The nesting depth of a value. *)
Fixpoint depth (v : value) : nat :=
  match v with
  | JArr l => S (list_max (map depth l))
  | JObj o => S (list_max (map (fun kv => match kv with (_, x) => depth x end) o))
  | _ => 0
  end.

(** No object inside [v] has an own property named [toString]. *)
Fixpoint no_toString (v : value) : bool :=
  match v with
  | JArr l => forallb no_toString l
  | JObj o =>
      match obj_get "toString" o with
      | Some _ => false
      | None => forallb (fun kv => match kv with (_, x) => no_toString x end) o
      end
  | _ => true
  end.

(** The blocks of the columns of a columns block, column after column; an
    entry that is not an array has none. *)
Definition columns_blocks (cols : list value) : list value :=
  flat_map (fun col => match col with JArr bl => bl | _ => [] end) cols.

(** A columns block in good shape: [children] is an array of arrays and
    [columns] is their number. *)
Definition columns_ok (block : object) : Prop :=
  exists ch,
    obj_get "children" block = Some (JArr ch) /\
    Forall (fun col => isArray col = true) ch /\
    obj_get "columns" block = Some (JNum (Number_ofNat (List.length ch))).

(** A stored document: an object whose [posts] is the array of the objects
    [ps]. *)
Definition document (o : object) (ps : list object) : Prop :=
  obj_get "posts" o = Some (JArr (map (@JObj number) ps)).

End MoreVocabulary.

(** ** A reference host

    Numbers are the integers; [JSON.parse] is a recursive-descent parser of
    the JSON grammar restricted to integer literals and to the two-character
    escapes (a fraction, an exponent or a [\u] escape is refused).  A
    repeated name keeps its first place and takes the last value.  It gives
    the concrete inputs of the examples below. *)

Module Reference.

Definition isJsonSpace (c : ascii) : bool :=
  let n := nat_of_ascii c in
  Nat.eqb n 32 || Nat.eqb n 9 || Nat.eqb n 10 || Nat.eqb n 13.

Fixpoint skip_ws (s : string) : string :=
  match s with
  | EmptyString => EmptyString
  | String c r => if isJsonSpace c then skip_ws r else s
  end.

Definition isDigit (c : ascii) : bool :=
  let n := nat_of_ascii c in Nat.leb 48 n && Nat.leb n 57.

Fixpoint digits (s : string) : string * string :=
  match s with
  | EmptyString => (EmptyString, EmptyString)
  | String c r =>
      if isDigit c then let (d, rest) := digits r in (String c d, rest)
      else (EmptyString, s)
  end.

Definition unescape (c : ascii) : option ascii :=
  if Ascii.eqb c "034" then Some "034"%char
  else if Ascii.eqb c "\" then Some "\"%char
  else if Ascii.eqb c "/" then Some "/"%char
  else if Ascii.eqb c "b" then Some "008"%char
  else if Ascii.eqb c "f" then Some "012"%char
  else if Ascii.eqb c "n" then Some "010"%char
  else if Ascii.eqb c "r" then Some "013"%char
  else if Ascii.eqb c "t" then Some "009"%char
  else None.

(** The characters of a string literal after its opening quote. *)
Fixpoint p_chars (s : string) : option (string * string) :=
  match s with
  | EmptyString => None
  | String c r =>
      if Ascii.eqb c "034" then Some (EmptyString, r)
      else if Ascii.eqb c "\" then
        match r with
        | String e r' =>
            match unescape e, p_chars r' with
            | Some c', Some (body, rest) => Some (String c' body, rest)
            | _, _ => None
            end
        | EmptyString => None
        end
      else if Nat.ltb (nat_of_ascii c) 32 then None
      else
        match p_chars r with
        | Some (body, rest) => Some (String c body, rest)
        | None => None
        end
  end.

Definition p_unsigned (s : string) : option (Z * string) :=
  let (d, rest) := digits s in
  let leading_zero :=
    match d with
    | String c (String _ _) => Ascii.eqb c "0"
    | _ => false
    end in
  let continues :=
    match rest with
    | String c _ => Ascii.eqb c "." || Ascii.eqb c "e" || Ascii.eqb c "E"
    | EmptyString => false
    end in
  if leading_zero || continues then None
  else
    match NilZero.uint_of_string d with
    | Some u => Some (Z.of_uint u, rest)
    | None => None
    end.

Definition p_number (s : string) : option (Z * string) :=
  match s with
  | String c r =>
      if Ascii.eqb c "-" then
        match p_unsigned r with
        | Some (z, rest) => Some (Z.opp z, rest)
        | None => None
        end
      else p_unsigned s
  | EmptyString => None
  end.

Definition p_literal (lit : string) (v : JSON Z) (s : string)
  : option (JSON Z * string) :=
  if String.prefix lit s
  then Some (v, String.substring (String.length lit)
                  (String.length s - String.length lit) s)
  else None.

Fixpoint p_value (fuel : nat) (s : string) : option (JSON Z * string) :=
  match fuel with
  | O => None
  | S fuel' =>
      match skip_ws s with
      | EmptyString => None
      | String c r =>
          if Ascii.eqb c "[" then
            match skip_ws r with
            | String c' r' =>
                if Ascii.eqb c' "]" then Some (JArr [], r')
                else
                  match p_elements fuel' r with
                  | Some (vs, rest) => Some (JArr vs, rest)
                  | None => None
                  end
            | EmptyString => None
            end
          else if Ascii.eqb c "{" then
            match skip_ws r with
            | String c' r' =>
                if Ascii.eqb c' "}" then Some (JObj [], r')
                else
                  match p_members fuel' r [] with
                  | Some (o, rest) => Some (JObj o, rest)
                  | None => None
                  end
            | EmptyString => None
            end
          else if Ascii.eqb c "034" then
            match p_chars r with
            | Some (str, rest) => Some (JStr str, rest)
            | None => None
            end
          else if Ascii.eqb c "t" then p_literal "true" (JBool true) (String c r)
          else if Ascii.eqb c "f" then p_literal "false" (JBool false) (String c r)
          else if Ascii.eqb c "n" then p_literal "null" JNull (String c r)
          else
            match p_number (String c r) with
            | Some (z, rest) => Some (JNum z, rest)
            | None => None
            end
      end
  end
with p_elements (fuel : nat) (s : string) : option (list (JSON Z) * string) :=
  match fuel with
  | O => None
  | S fuel' =>
      match p_value fuel' s with
      | Some (v, r) =>
          match skip_ws r with
          | String c r' =>
              if Ascii.eqb c "," then
                match p_elements fuel' r' with
                | Some (vs, rest) => Some (v :: vs, rest)
                | None => None
                end
              else if Ascii.eqb c "]" then Some ([v], r')
              else None
          | EmptyString => None
          end
      | None => None
      end
  end
with p_members (fuel : nat) (s : string) (o : list (string * JSON Z))
  : option (list (string * JSON Z) * string) :=
  match fuel with
  | O => None
  | S fuel' =>
      match skip_ws s with
      | String q r =>
          if Ascii.eqb q "034" then
            match p_chars r with
            | Some (k, r1) =>
                match skip_ws r1 with
                | String colon r2 =>
                    if Ascii.eqb colon ":" then
                      match p_value fuel' r2 with
                      | Some (v, r3) =>
                          let o' := obj_set k v o in
                          match skip_ws r3 with
                          | String c r4 =>
                              if Ascii.eqb c "," then p_members fuel' r4 o'
                              else if Ascii.eqb c "}" then Some (o', r4)
                              else None
                          | EmptyString => None
                          end
                      | None => None
                      end
                    else None
                | EmptyString => None
                end
            | None => None
            end
          else None
      | EmptyString => None
      end
  end.

(** The whole text must be one value, white space around it allowed. *)
Definition parse (s : string) : option (JSON Z) :=
  match p_value (2 * String.length s + 2) s with
  | Some (v, rest) =>
      match skip_ws rest with
      | EmptyString => Some v
      | String _ _ => None
      end
  | None => None
  end.

Definition host : Host := {|
  number := Z;
  Number_ToBoolean := fun z => negb (Z.eqb z 0);
  Number_toString := fun z => NilZero.string_of_int (Z.to_int z);
  Number_ofNat := Z.of_nat;
  JSON_parse := parse
|}.

End Reference.

(** ** Concrete inputs, on the reference host *)

Module Examples.

Definition ref_value : Type := @value Reference.host.
Definition ref_object : Type := @object Reference.host.

Definition legacy_content : string := "[{" ++ quoted "id" ++ ":1,...}]".

Definition paragraph_hi : ref_value := @scenario1_block Reference.host 1%Z.

(** A stored document with one double-encoded post. *)
Definition stored_post : ref_object :=
  [("id", JStr "2024-01-01"); ("title", JStr "Hello");
   ("content", JStr legacy_content); ("blocks", JStr scenario1_blocks);
   ("image", JNull); ("date", JStr "2024-01-01"); ("sectionId", JNum 1%Z)].

Definition stored_data : ref_value :=
  JObj [("sections", JArr []); ("posts", JArr [JObj stored_post]);
        ("nextSectionId", JNum 2%Z)].

Definition migrated_post : ref_object :=
  [("id", JStr "2024-01-01"); ("title", JStr "Hello");
   ("content", JStr "hi"); ("blocks", JArr [paragraph_hi]);
   ("image", JNull); ("date", JStr "2024-01-01"); ("sectionId", JNum 1%Z)].

Definition migrated_data : ref_value :=
  JObj [("sections", JArr []); ("posts", JArr [JObj migrated_post]);
        ("nextSectionId", JNum 2%Z)].

Definition text_block (type content : string) : ref_object :=
  [("id", JNum 1%Z); ("type", JStr type); ("size", JStr "full");
   ("content", JStr content)].

(** A heading, a paragraph left empty, and a paragraph. *)
Definition three_blocks : list ref_object :=
  [text_block "heading" "A"; text_block "paragraph" "";
   text_block "paragraph" "B"].

Definition two_columns : ref_object :=
  [("id", JNum 7%Z); ("type", JStr "columns"); ("size", JStr "full");
   ("columns", JNum 2%Z);
   ("children", JArr [JArr [JObj (text_block "paragraph" "left")]; JArr []])].

Definition three_posts : list ref_value :=
  [JObj [("id", JStr "x")]; JObj [("id", JStr "x-2")]; JObj [("id", JNum 5%Z)]].

(** Blocks that are their own ids. *)
Definition abc : list string := ["a"; "b"; "c"].
Definition self_id (b : string) : string := b.

End Examples.

(** ** Concrete requests and stores, on the reference host *)

Module HandlerExamples.
Import Examples.

(** [parseInt] on the reference host: the decimal digits, after white space
    and a sign, at the start of the text of the value. *)
Definition parseInt (v : ref_value) : outcome (option Z) :=
  s <- @ToString Reference.host v ;;
  Ok (let text := trimStart s in
      let (negative, rest) :=
        match text with
        | String c r =>
            if Ascii.eqb c "-" then (true, r)
            else if Ascii.eqb c "+" then (false, r)
            else (false, text)
        | EmptyString => (false, text)
        end in
      match NilZero.uint_of_string (fst (Reference.digits rest)) with
      | Some u => Some (if negative then Z.opp (Z.of_uint u) else Z.of_uint u)
      | None => None
      end).

Definition post_a : ref_object :=
  [("id", JStr "a"); ("title", JStr "First"); ("content", JStr "hi");
   ("blocks", JArr [paragraph_hi]); ("image", JStr "/uploads/1.png");
   ("date", JStr "2024-01-01"); ("sectionId", JNum 1%Z)].

Definition post_b : ref_object :=
  [("id", JStr "b"); ("title", JStr "Second"); ("content", JStr "");
   ("blocks", JNull); ("image", JNull);
   ("date", JStr "2024-01-02"); ("sectionId", JNum 2%Z)].

(** A migrated store with two sections and a post in each. *)
Definition store : ref_object :=
  [("sections", JArr [JObj [("id", JNum 1%Z); ("name", JStr "News")];
                      JObj [("id", JNum 2%Z); ("name", JStr "Notes")]]);
   ("posts", JArr [JObj post_a; JObj post_b]);
   ("nextSectionId", JNum 3%Z)].

(** A request of the editor: the blocks as a text, and an id that is
    taken. *)
Definition request : ref_object :=
  [("title", JStr "Third"); ("blocks", JStr scenario1_blocks);
   ("sectionId", JStr "2"); ("id", JStr "a")].

(** A grid with a heading and a paragraph, and a columns block with one
    paragraph in its second column. *)
Definition heading_A : ref_value := JObj (text_block "heading" "A").
Definition paragraph_B : ref_value := JObj (text_block "paragraph" "B").

Definition grid_AB : ref_object :=
  [("id", JNum 2%Z); ("type", JStr "grid"); ("size", JStr "full");
   ("cols", JNum 3%Z); ("gap", JNum 16%Z);
   ("children", JArr [heading_A; paragraph_B])].


(** A store in which one post is [null]. *)
Definition broken_posts : list ref_value := [JObj post_a; JNull].

(** The answer to [request] sent with an uploaded file, and the store
    after section 2 is deleted. *)
Definition posted : option (outcome (ref_value * ref_object)) :=
  Eval vm_compute in
    @post_api_posts Reference.host parseInt 3 (JObj store) (JObj request)
      (Some "9.png") "2024-02-01" "2024-02-01".

Definition store_without_2 : outcome ref_value :=
  Eval vm_compute in
    @delete_api_sections Reference.host Z.eqb (JObj store) (Some 2%Z).

End HandlerExamples.

(** * Properties *)

(** ** Objects *)

Section ObjectFacts.
Variable number : Type.
Implicit Types (o : list (string * JSON number)) (v : JSON number) (k : string).

Lemma obj_get_set_same k v o : obj_get k (obj_set k v o) = Some v.
Proof.
  induction o as [|[k' v'] r IH]; simpl.
  - now rewrite String.eqb_refl.
  - destruct (String.eqb k k') eqn:E; simpl; rewrite E; auto.
Qed.

Lemma obj_get_set_other k k' v o :
  k <> k' -> obj_get k (obj_set k' v o) = obj_get k o.
Proof.
  intros Hk. induction o as [|[k0 v0] r IH]; simpl.
  - apply String.eqb_neq in Hk. now rewrite Hk.
  - destruct (String.eqb k' k0) eqn:E; simpl.
    + apply String.eqb_eq in E. subst k0.
      apply String.eqb_neq in Hk. now rewrite Hk.
    + now rewrite IH.
Qed.

Lemma obj_set_set_same k v v' o : obj_set k v (obj_set k v' o) = obj_set k v o.
Proof.
  induction o as [|[k' v0] r IH]; simpl.
  - now rewrite String.eqb_refl.
  - destruct (String.eqb k k') eqn:E; simpl; rewrite E; congruence.
Qed.

Lemma obj_case_get {B} k (absent : B) present o :
  obj_case k absent present o =
  match obj_get k o with Some v => present v | None => absent end.
Proof.
  induction o as [|[k' v'] r IH]; simpl; auto.
  destruct (String.eqb k k'); auto.
Qed.

End ObjectFacts.

(** Case analysis on the innermost [match] of a hypothesis. *)
Ltac break_match_hyp H :=
  match type of H with
  | context [match ?x with _ => _ end] =>
      lazymatch x with
      | context [match _ with _ => _ end] => fail
      | _ => destruct x eqn:?
      end
  end.

Ltac array_inv :=
  repeat match goal with
         | Hx : isArray ?x = true |- _ =>
             destruct x eqn:?; try discriminate Hx; clear Hx
         end.

Ltac obj_simpl :=
  repeat (rewrite obj_get_set_same in *
          || rewrite obj_get_set_other in * by discriminate).

Section ServerFacts.
Context {H : Host}.
Implicit Types (post : object) (posts : list object) (data : value).

(** ** Migration *)

Lemma migratePost_canonical post l :
  obj_get "blocks" post = Some (JArr l) -> migratePost post = Ok (false, post).
Proof.
  intros Hb. unfold migratePost. rewrite Hb. simpl. now rewrite Hb.
Qed.

(** A run of the loop body either leaves the post alone and reports nothing,
    or leaves a post whose [blocks] is an array. *)
Lemma migratePost_result post c post' :
  migratePost post = Ok (c, post') ->
  (c = false /\ post' = post) \/
  (exists l, obj_get "blocks" post' = Some (JArr l)).
Proof.
  unfold migratePost, bind. intros Hrun.
  repeat break_match_hyp Hrun; array_inv; obj_simpl; try discriminate;
    injection Hrun as <- <-; subst;
    solve [ now left | right; obj_simpl; eauto ].
Qed.

Lemma migratePost_idempotent post c post' :
  migratePost post = Ok (c, post') -> migratePost post' = Ok (false, post').
Proof.
  intros Hrun. destruct (migratePost_result _ Hrun) as [[-> ->]|[l Hl]].
  - exact Hrun.
  - eapply migratePost_canonical; eauto.
Qed.

Lemma migrateLoop_stable posts c :
  Forall (fun p => migratePost p = Ok (false, p)) posts ->
  migrateLoop posts c = Ok (c, posts).
Proof.
  intros Hst. revert c. induction Hst as [|p ps Hp _ IH]; intros c; simpl.
  - reflexivity.
  - rewrite Hp. simpl. rewrite IH. simpl. now rewrite orb_false_r.
Qed.

Lemma migrateLoop_fixed posts c0 c posts' :
  migrateLoop posts c0 = Ok (c, posts') ->
  Forall (fun p => migratePost p = Ok (false, p)) posts'.
Proof.
  revert c0 c posts'. induction posts as [|p ps IH]; intros c0 c posts'; simpl.
  - intros [= <- <-]. constructor.
  - destruct (migratePost p) as [[cp p']|] eqn:Hp; simpl; [|discriminate].
    destruct (migrateLoop ps (c0 || cp)) as [[c1 ps']|] eqn:Hps; simpl;
      [|discriminate].
    intros [= <- <-]. constructor.
    + eapply migratePost_idempotent; eauto.
    + eapply IH; eauto.
Qed.

Lemma spread_JObj posts : map spread (map (@JObj number) posts) = posts.
Proof. rewrite map_map. simpl. apply map_id. Qed.

Lemma copyPosts_posts_of data : copyPosts (spread data) = map spread (posts_of data).
Proof.
  unfold copyPosts, posts_of.
  destruct (obj_get "posts" (spread data)) as [[| | | |ps|]|]; reflexivity.
Qed.

Lemma migratePost_frame post c post' k :
  migratePost post = Ok (c, post') ->
  k <> "blocks" -> k <> "content" ->
  obj_get k post' = obj_get k post.
Proof.
  unfold migratePost, bind. intros Hrun Hb Hc.
  repeat break_match_hyp Hrun; try discriminate;
    injection Hrun as <- <-; subst;
    now rewrite ?obj_get_set_other by assumption.
Qed.

Lemma migrateLoop_frame posts c0 c posts' :
  migrateLoop posts c0 = Ok (c, posts') ->
  Forall2 (fun p p' => forall k, k <> "blocks" -> k <> "content" ->
                                 obj_get k p' = obj_get k p) posts posts'.
Proof.
  revert c0 c posts'. induction posts as [|p ps IH]; intros c0 c posts'; simpl.
  - intros [= <- <-]. constructor.
  - destruct (migratePost p) as [[cp p']|] eqn:Hp; simpl; [|discriminate].
    destruct (migrateLoop ps (c0 || cp)) as [[c1 ps']|] eqn:Hps; simpl;
      [|discriminate].
    intros [= <- <-]. constructor.
    + intros k Hb Hc. eapply migratePost_frame; eauto.
    + eapply IH; eauto.
Qed.

(** C1.  Migration is idempotent: whenever [migratePostsIfNeeded] returns a
    document, whatever the shape of the posts it was given (canonical,
    double-encoded, pre-block or anything else), running it again on that
    document returns [changed = false] and the same document. *)
Theorem migratePostsIfNeeded_idempotent data changed out :
  migratePostsIfNeeded data = Ok (changed, out) ->
  migratePostsIfNeeded out = Ok (false, out).
Proof.
  unfold migratePostsIfNeeded.
  destruct (migrateLoop (copyPosts (spread data)) false) as [[c posts]|] eqn:Hl;
    simpl; [|discriminate].
  intros [= <- <-]. simpl.
  unfold copyPosts at 1. rewrite obj_get_set_same, spread_JObj.
  rewrite (migrateLoop_stable false (migrateLoop_fixed _ _ Hl)). simpl.
  now rewrite obj_set_set_same.
Qed.

(** C9.  Migration touches only [blocks] and [content] of each post: the
    result is an object whose properties other than [posts] are those of the
    input ([spread] of an object is the list of its own properties), whose
    [posts] is an array with one object per input post, in the same order,
    and every property of a post other than [blocks] and [content] (so [id],
    [title], [image], [date], [sectionId]) reads as before. *)
Theorem migratePostsIfNeeded_frame data changed out :
  migratePostsIfNeeded data = Ok (changed, out) ->
  exists fields posts',
    out = JObj fields /\
    (forall k, k <> "posts" -> obj_get k fields = obj_get k (spread data)) /\
    obj_get "posts" fields = Some (JArr (map (@JObj number) posts')) /\
    List.length posts' = List.length (posts_of data) /\
    Forall2 (fun p p' => forall k, k <> "blocks" -> k <> "content" ->
                                   obj_get k p' = obj_get k (spread p))
            (posts_of data) posts'.
Proof.
  unfold migratePostsIfNeeded.
  destruct (migrateLoop (copyPosts (spread data)) false) as [[c posts]|] eqn:Hl;
    simpl; [|discriminate].
  intros [= <- <-]. exists (obj_set "posts" (JArr (map (@JObj number) posts))
                              (spread data)), posts.
  apply migrateLoop_frame in Hl. rewrite copyPosts_posts_of in Hl.
  split; [reflexivity|]. split; [|split; [|split]].
  - intros k Hk. now apply obj_get_set_other.
  - apply obj_get_set_same.
  - apply Forall2_length in Hl. now rewrite length_map in Hl.
  - clear -Hl. remember (map spread (posts_of data)) as l eqn:El.
    revert El. generalize (posts_of data).
    induction Hl as [|p p' l l' Hp _ IH]; intros [|q qs] El; try discriminate;
      constructor.
    + injection El as -> _. exact Hp.
    + injection El as _ El. now apply IH.
Qed.

(** C7.  A double-encoded post: [blocks] is the text
    [[{"id":1,"type":"paragraph","content":"hi"}]] (which [JSON.parse] turns
    into a one-element array) and [content] is any string whose trimmed text
    starts with an opening bracket.  Migration makes [blocks] that
    one-element array and [content] the text ["hi"], and reports
    [changed = true]. *)
Theorem migratePostsIfNeeded_double_encoded (one : number) (content : string) :
  JSON_parse scenario1_blocks = Some (JArr [scenario1_block one]) ->
  startsWith (trim content) "[" = true ->
  migratePostsIfNeeded (JObj [("posts", JArr [scenario1_post content])]) =
  Ok (true,
      JObj [("posts",
             JArr [JObj [("blocks", JArr [scenario1_block one]);
                         ("content", JStr "hi")]])]).
Proof.
  unfold scenario1_post. generalize scenario1_blocks as text.
  intros text Hparse Hlooks.
  unfold migratePostsIfNeeded; simpl.
  unfold migratePost, tryParseJson; simpl.
  rewrite Hparse. simpl. rewrite Hlooks. reflexivity.
Qed.

End ServerFacts.

Section ExtractorFacts.
Context {H : Host}.

Lemma walk_text_node o c lines :
  text_node o c ->
  walk (JObj o) lines = Ok (if String.eqb c "" then lines else lines ++ [c]).
Proof.
  intros [Hty Hc]. simpl. rewrite Hty, Hc. simpl.
  now destruct (String.eqb c "").
Qed.

Lemma forEach_walk_text_nodes objs contents lines :
  Forall2 text_node objs contents ->
  forEach walk (map (@JObj number) objs) lines = Ok (lines ++ nonempty contents).
Proof.
  intros Hn. revert lines.
  induction Hn as [|o c objs contents Hoc _ IH]; intros lines.
  - simpl. now rewrite app_nil_r.
  - cbn [map forEach]. rewrite (walk_text_node lines Hoc).
    cbn [bind]. rewrite IH. unfold nonempty. cbn [filter].
    destruct (String.eqb c ""); cbn [negb]; [reflexivity|].
    now rewrite <- app_assoc.
Qed.

Lemma concat_snoc sep ls l :
  String.concat sep (ls ++ [l]) = fold_right (fun x acc => (x ++ sep ++ acc)%string) l ls.
Proof.
  induction ls as [|x r IH]; [reflexivity|].
  cbn [fold_right]. rewrite <- IH.
  destruct r; reflexivity.
Qed.

(** C2, as amended.  A heading or paragraph whose content is a non-empty
    string contributes that string, verbatim, as one line; one whose content
    is the empty string contributes nothing.  For a sequence of such nodes
    the result is the non-empty contents joined by single newlines: every
    line but the last is followed by one newline and the last by nothing. *)
Theorem extractPlainText_text_nodes objs contents :
  Forall2 text_node objs contents ->
  Forall2 (fun o c => forall lines,
             walk (JObj o) lines =
             Ok (if String.eqb c "" then lines else lines ++ [c]))
          objs contents /\
  extractPlainTextFromBlocks (JArr (map (@JObj number) objs)) =
  Ok (String.concat newline (nonempty contents)) /\
  (forall ls l, nonempty contents = ls ++ [l] ->
     String.concat newline (nonempty contents) =
     fold_right (fun x acc => (x ++ newline ++ acc)%string) l ls).
Proof.
  intros Hn. split; [|split].
  - induction Hn; constructor; auto.
    intros lines. now apply walk_text_node.
  - unfold extractPlainTextFromBlocks.
    change (walk (JArr (map (@JObj number) objs)) [])
      with (forEach walk (map (@JObj number) objs) []).
    now rewrite (forEach_walk_text_nodes [] Hn).
  - intros ls l ->. apply concat_snoc.
Qed.

End ExtractorFacts.

Section EditorFacts.
Context {H : Host}.

(** C3, as amended.  For a type that is not one of the five variant tags,
    [createBlock] does not fail: it returns the base block, with the fresh id,
    the given type and [size = "full"], and no other property. *)
Theorem createBlock_unknown_type (fresh : number) (type : string) :
  ~ In type blockTypes ->
  createBlock fresh type =
  Ok [("id", JNum fresh); ("type", JStr type); ("size", JStr "full")].
Proof.
  intros Hn. unfold createBlock.
  repeat match goal with
         | |- context [String.eqb type ?t] =>
             destruct (String.eqb_spec type t) as [->|_];
               [exfalso; apply Hn; simpl; tauto|]
         end.
  reflexivity.
Qed.

(** C8.  For each of the five variant tags [createBlock] returns a block
    whose [id] is the freshly generated number, whose [type] is the tag and
    whose [size] is ["full"], with the defaults of the variant: a heading has
    [level] 2; a columns block has column count ([columns]) 2 and two empty
    columns; a grid has 3 columns ([cols]), [gap] 16 and no children. *)
Theorem createBlock_defaults (fresh : number) (type : string) :
  In type blockTypes ->
  exists block,
    createBlock fresh type = Ok block /\
    obj_get "id" block = Some (JNum fresh) /\
    obj_get "type" block = Some (JStr type) /\
    obj_get "size" block = Some (JStr "full") /\
    (type = "heading" ->
       obj_get "level" block = Some (JNum (Number_ofNat 2))) /\
    (type = "columns" ->
       obj_get "columns" block = Some (JNum (Number_ofNat 2)) /\
       obj_get "children" block = Some (JArr [JArr []; JArr []])) /\
    (type = "grid" ->
       obj_get "cols" block = Some (JNum (Number_ofNat 3)) /\
       obj_get "gap" block = Some (JNum (Number_ofNat 16)) /\
       obj_get "children" block = Some (JArr [])).
Proof.
  simpl. intros [<-|[<-|[<-|[<-|[<-|[]]]]]];
    (eexists; split; [reflexivity|]);
    repeat split; try discriminate; reflexivity.
Qed.

Lemma forEach_collect {A B} (g : A -> outcome B) (f : A -> B) l acc :
  (forall i, In i l -> g i = Ok (f i)) ->
  forEach (fun i acc => x <- g i ;; Ok (acc ++ [x])) l acc = Ok (acc ++ map f l).
Proof.
  revert acc. induction l as [|i r IH]; intros acc Hg; simpl.
  - now rewrite app_nil_r.
  - rewrite (Hg i) by now left. simpl.
    rewrite IH by (intros; apply Hg; now right).
    now rewrite <- app_assoc.
Qed.

(** C6.  Changing the column count of a columns block whose columns are
    arrays gives a block whose [columns] is the new count and whose
    [children] has exactly that many entries: the columns at the indices that
    survive are the old ones, the added ones are empty arrays. *)
Theorem ColumnsBlock_onChange_resizes (block : object) (ch : list value)
  (cols : nat) :
  obj_get "children" block = Some (JArr ch) ->
  Forall (fun col => isArray col = true) ch ->
  exists block' ch',
    ColumnsBlock_onChange block cols = Ok block' /\
    obj_get "columns" block' = Some (JNum (Number_ofNat cols)) /\
    obj_get "children" block' = Some (JArr ch') /\
    List.length ch' = cols /\
    (forall i, i < cols -> i < List.length ch ->
               nth_error ch' i = nth_error ch i) /\
    (forall i, i < cols -> List.length ch <= i ->
               nth_error ch' i = Some (JArr [])).
Proof.
  intros Hch Harr.
  set (ch' := map (fun i => orEmpty (nth_error ch i)) (seq 0 cols)).
  assert (Hrun : ColumnsBlock_onChange block cols =
                 Ok (obj_set "children" (JArr ch')
                       (obj_set "columns" (JNum (Number_ofNat cols)) block))).
  { unfold ColumnsBlock_onChange. rewrite Hch.
    erewrite (forEach_collect
                (fun i => x <- js_index (Some (JArr ch)) i ;; Ok (orEmpty x))
                (fun i => orEmpty (nth_error ch i))).
    - reflexivity.
    - reflexivity. }
  assert (Hnth : forall i, i < cols ->
                   nth_error ch' i = Some (orEmpty (nth_error ch i))).
  { intros i Hi. unfold ch'. rewrite nth_error_map.
    rewrite nth_error_seq. 
    destruct (Nat.ltb_spec i cols); [reflexivity|lia]. }
  exists (obj_set "children" (JArr ch')
            (obj_set "columns" (JNum (Number_ofNat cols)) block)), ch'.
  split; [exact Hrun|]. split; [|split; [|split; [|split]]].
  - rewrite obj_get_set_other by discriminate. apply obj_get_set_same.
  - apply obj_get_set_same.
  - unfold ch'. now rewrite length_map, length_seq.
  - intros i Hi Hlen. rewrite Hnth by assumption.
    destruct (nth_error ch i) as [v|] eqn:Hv.
    + rewrite Forall_forall in Harr.
      specialize (Harr v (nth_error_In _ _ Hv)).
      destruct v; try discriminate. reflexivity.
    + apply nth_error_None in Hv. lia.
  - intros i Hi Hlen. rewrite Hnth by assumption.
    apply nth_error_None in Hlen. now rewrite Hlen.
Qed.

End EditorFacts.

(** ** Reordering *)

Section ArrayFacts.
Variable T : Type.
Implicit Types (l : list T) (x : T).

Lemma splice_at l start deleteCount items a d :
  (if (start <? 0)%Z then Z.max (Z.of_nat (List.length l) + start) 0
   else Z.min start (Z.of_nat (List.length l)))%Z = Z.of_nat a ->
  Z.min (Z.max deleteCount 0) (Z.of_nat (List.length l) - Z.of_nat a)%Z
  = Z.of_nat d ->
  splice l start deleteCount items =
  (firstn d (skipn a l), firstn a l ++ items ++ skipn (a + d) l).
Proof.
  intros Ha Hd. unfold splice. cbv zeta. rewrite Ha, Hd.
  now rewrite !Nat2Z.id.
Qed.

Lemma removeAt_split l1 x l2 :
  removeAt (List.length l1) (l1 ++ x :: l2) = l1 ++ l2.
Proof.
  unfold removeAt.
  rewrite firstn_app, Nat.sub_diag, firstn_all, app_nil_r.
  rewrite skipn_app, skipn_all2 by lia.
  replace (S (List.length l1) - List.length l1) with 1 by lia.
  reflexivity.
Qed.

Lemma removeAt_length l i x :
  nth_error l i = Some x -> S (List.length (removeAt i l)) = List.length l.
Proof.
  intros Hx. destruct (nth_error_split _ _ Hx) as (l1 & l2 & -> & <-).
  rewrite removeAt_split, !length_app. simpl. lia.
Qed.

Lemma removeAt_perm l i x :
  nth_error l i = Some x -> Permutation l (x :: removeAt i l).
Proof.
  intros Hx. destruct (nth_error_split _ _ Hx) as (l1 & l2 & -> & <-).
  rewrite removeAt_split. symmetry. apply Permutation_middle.
Qed.

Lemma insertAt_perm l j x : Permutation (x :: l) (insertAt j x l).
Proof.
  unfold insertAt. rewrite <- (firstn_skipn j l) at 1.
  apply Permutation_middle.
Qed.

Lemma insertAt_nth l j x :
  j <= List.length l -> nth_error (insertAt j x l) j = Some x.
Proof.
  intros Hj. unfold insertAt.
  rewrite nth_error_app2; rewrite length_firstn, Nat.min_l by lia; [|lia].
  now rewrite Nat.sub_diag.
Qed.

Lemma removeAt_insertAt l j x :
  j <= List.length l -> removeAt j (insertAt j x l) = l.
Proof.
  intros Hj. unfold insertAt.
  replace j with (List.length (firstn j l)) at 1
    by (rewrite length_firstn; lia).
  rewrite removeAt_split. apply firstn_skipn.
Qed.

(** [arrayMove] on indices in the range that [findIndex] produces: each of
    [from], [to] is a position, [-1] standing for the last one. *)
Lemma arrayMove_wrap (undefined : T) l from to x :
  (- Z.of_nat (List.length l) <= from < Z.of_nat (List.length l))%Z ->
  (- Z.of_nat (List.length l) <= to < Z.of_nat (List.length l))%Z ->
  nth_error l (wrap (List.length l) from) = Some x ->
  arrayMove undefined l from to =
  insertAt (wrap (List.length l) to) x (removeAt (wrap (List.length l) from) l).
Proof.
  intros Hf Ht Hx.
  set (n := List.length l) in *.
  set (i := wrap n from) in *. set (j := wrap n to) in *.
  assert (Hi : i < n) by (apply nth_error_Some; congruence).
  assert (Hfi : (if (from <? 0)%Z then Z.max (Z.of_nat n + from) 0
                 else Z.min from (Z.of_nat n))%Z = Z.of_nat i).
  { unfold i, wrap. destruct (Z.ltb_spec from 0); lia. }
  assert (Hj : j < n) by (unfold j, wrap; destruct (Z.ltb_spec to 0); lia).
  unfold arrayMove.
  rewrite (@splice_at l from 1 [] i 1) by (fold n; lia).
  assert (Hrem : firstn 1 (skipn i l) = [x]).
  { destruct (nth_error_split _ _ Hx) as (l1 & l2 & -> & Hl1).
    rewrite skipn_app, skipn_all2 by lia.
    replace (i - List.length l1) with 0 by lia. reflexivity. }
  rewrite Hrem. cbn [nth app].
  replace (i + 1) with (S i) by lia.
  change (firstn i l ++ skipn (S i) l) with (removeAt i l).
  pose proof (removeAt_length _ _ Hx) as Hlen. fold n in Hlen.
  rewrite (@splice_at (removeAt i l) _ 0 [x] j 0).
  - cbn [snd firstn app]. now rewrite Nat.add_0_r.
  - fold n. unfold j, wrap.
    destruct (Z.ltb_spec to 0);
      destruct (Z.ltb_spec (Z.of_nat n + to) 0); try lia;
      destruct (Z.ltb_spec to 0); lia.
  - lia.
Qed.

Lemma findIndex_range (p : T -> bool) l :
  (-1 <= findIndex p l < Z.of_nat (List.length l))%Z \/
  (l = [] /\ findIndex p l = (-1)%Z).
Proof.
  induction l as [|y r IH]; simpl.
  - now right.
  - left. destruct (p y); [lia|].
    destruct (Z.ltb_spec (findIndex p r) 0); destruct IH as [IH|[_ IH]]; lia.
Qed.

Lemma findIndex_first (p : T -> bool) l i :
  first_index p l i -> findIndex p l = Z.of_nat i.
Proof.
  revert i. induction l as [|y r IH]; intros i [(x & Hx & Hp) Hmin].
  - destruct i; discriminate.
  - simpl. destruct i as [|i].
    + injection Hx as ->. now rewrite Hp.
    + rewrite (Hmin 0 y) by (simpl; auto; lia).
      rewrite (IH i).
      * destruct (Z.ltb_spec (Z.of_nat i) 0); lia.
      * split; [now exists x|].
        intros k z Hk Hz. apply (Hmin (S k) z); [lia|exact Hz].
Qed.

Lemma findIndex_absent (p : T -> bool) l :
  (forall y, In y l -> p y = false) -> findIndex p l = (-1)%Z.
Proof.
  induction l as [|y r IH]; intros Hno; simpl; [reflexivity|].
  rewrite (Hno y) by now left.
  rewrite IH by (intros; apply Hno; now right). reflexivity.
Qed.

Lemma first_index_exists (p : T -> bool) l :
  (exists y, In y l /\ p y = true) -> exists i, first_index p l i.
Proof.
  induction l as [|y r IH]; intros (z & Hin & Hz); [destruct Hin|].
  destruct (p y) eqn:Hy.
  - exists 0. split; [now exists y|]. intros; lia.
  - destruct Hin as [->|Hin]; [congruence|].
    destruct IH as (i & (x & Hx & Hp) & Hmin); [now exists z|].
    exists (S i). split; [now exists x|].
    intros [|k] w Hk Hw.
    + injection Hw as <-. exact Hy.
    + apply (Hmin k w); [lia|exact Hw].
Qed.

End ArrayFacts.

Section DragFacts.
Variables Block Id : Type.
Variable block_id : Block -> Id.
Variable Id_eqb : Id -> Id -> bool.
Hypothesis Id_eqb_spec : forall a b, Id_eqb a b = true <-> a = b.
Implicit Types (l : list Block) (moved target : Id).

Lemma map_removeAt {A B} (f : A -> B) i (l : list A) :
  removeAt i (map f l) = map f (removeAt i l).
Proof. unfold removeAt. now rewrite map_app, firstn_map, skipn_map. Qed.

Lemma map_insertAt {A B} (f : A -> B) j x (l : list A) :
  insertAt j (f x) (map f l) = map f (insertAt j x l).
Proof. unfold insertAt. rewrite map_app. simpl. now rewrite firstn_map, skipn_map. Qed.

Lemma handleDragEnd_wrap l moved target x :
  l <> [] ->
  Id_eqb moved target = false ->
  nth_error l (wrap (List.length l)
                 (findIndex (fun b => Id_eqb (block_id b) moved) l)) = Some x ->
  handleDragEnd block_id Id_eqb moved (Some target) l =
  Ok (map Some
        (insertAt (wrap (List.length l)
                     (findIndex (fun b => Id_eqb (block_id b) target) l)) x
           (removeAt (wrap (List.length l)
                        (findIndex (fun b => Id_eqb (block_id b) moved) l)) l))).
Proof.
  intros Hne Hneq Hx. unfold handleDragEnd. rewrite Hneq. cbn [negb].
  assert (Hpos : 0 < List.length l)
    by (destruct l; [contradiction|simpl; lia]).
  f_equal.
  rewrite (@arrayMove_wrap _ None (map Some l) _ _ (Some x)).
  - now rewrite length_map, map_removeAt, map_insertAt.
  - rewrite length_map.
    destruct (findIndex_range (fun b => Id_eqb (block_id b) moved) l)
      as [?|[? _]]; [lia|contradiction].
  - rewrite length_map.
    destruct (findIndex_range (fun b => Id_eqb (block_id b) target) l)
      as [?|[? _]]; [lia|contradiction].
  - now rewrite length_map, nth_error_map, Hx.
Qed.

Lemma wrap_index n i : wrap n (Z.of_nat i) = i.
Proof. unfold wrap. destruct (Z.ltb_spec (Z.of_nat i) 0); lia. Qed.

Lemma position_of_In l id :
  In id (map block_id l) -> exists i, position block_id Id_eqb l id i.
Proof.
  intros Hin. apply in_map_iff in Hin. destruct Hin as (b & Hb & Hin).
  apply first_index_exists. exists b. split; [exact Hin|].
  now apply Id_eqb_spec.
Qed.

(** C4, as amended.  [handleDragEnd] leaves the list as it is when the moved
    id equals the target id.  It makes no membership check: with an id that
    is absent from a non-empty list the result is still a permutation of the
    list, but not in general the list itself. *)
Theorem handleDragEnd_same_id_noop :
  (forall l id, handleDragEnd block_id Id_eqb id (Some id) l = Ok (map Some l)) /\
  (forall l moved target, l <> [] ->
     exists l', handleDragEnd block_id Id_eqb moved (Some target) l
                = Ok (map Some l') /\
                Permutation l l').
Proof.
  split.
  - intros l id. unfold handleDragEnd.
    now rewrite (proj2 (Id_eqb_spec id id) eq_refl).
  - intros l moved target Hne.
    destruct (Id_eqb moved target) eqn:E.
    + exists l. split; [|reflexivity]. unfold handleDragEnd. now rewrite E.
    + set (from := findIndex (fun b => Id_eqb (block_id b) moved) l).
      destruct (nth_error l (wrap (List.length l) from)) as [x|] eqn:Hx.
      * eexists. split; [apply (handleDragEnd_wrap Hne E Hx)|].
        fold from. rewrite (removeAt_perm _ _ Hx) at 1. apply insertAt_perm.
      * exfalso. apply nth_error_None in Hx. unfold wrap in Hx.
        destruct (findIndex_range (fun b => Id_eqb (block_id b) moved) l)
          as [Hr|[? _]]; [|contradiction].
        fold from in Hr.
        assert (0 < List.length l) by (destruct l; [contradiction|simpl; lia]).
        destruct (Z.ltb_spec from 0); lia.
Qed.

(** C5.  When both ids occur in the list, [handleDragEnd] returns a
    permutation of it, of the same length, in which the moved block stands at
    the position the target had and the other blocks keep their relative
    order: taking the moved block out of the result and out of the input
    leaves the same list.  On [[a; b; c]], moving [c] onto [a] gives
    [[c; a; b]]. *)
Theorem handleDragEnd_permutation l moved target :
  In moved (map block_id l) ->
  In target (map block_id l) ->
  (exists i j l',
     position block_id Id_eqb l moved i /\
     position block_id Id_eqb l target j /\
     handleDragEnd block_id Id_eqb moved (Some target) l = Ok (map Some l') /\
     Permutation l l' /\
     List.length l' = List.length l /\
     nth_error l' j = nth_error l i /\
     removeAt j l' = removeAt i l) /\
  handleDragEnd (fun b : string => b) String.eqb "c" (Some "a") ["a"; "b"; "c"]
  = Ok [Some "c"; Some "a"; Some "b"].
Proof.
  intros Hm Ht. split; [|reflexivity].
  destruct (position_of_In _ _ Hm) as (i & Hi).
  destruct (position_of_In _ _ Ht) as (j & Hj).
  pose proof (findIndex_first Hi) as Hfi.
  pose proof (findIndex_first Hj) as Hfj.
  destruct (Id_eqb moved target) eqn:E.
  - apply Id_eqb_spec in E. subst target.
    assert (i = j) by lia. subst j.
    exists i, i, l. repeat split; try assumption; try reflexivity;
      try apply Hi.
    unfold handleDragEnd.
    now rewrite (proj2 (Id_eqb_spec moved moved) eq_refl).
  - destruct Hi as [(x & Hx & Hpx) Hmin].
    assert (Hjn : j < List.length l).
    { destruct Hj as [(y & Hy & _) _]. apply nth_error_Some. congruence. }
    assert (Hne : l <> []) by (intros ->; simpl in Hjn; lia).
    pose proof (removeAt_length _ _ Hx) as Hlen.
    assert (Hrun := fun x => @handleDragEnd_wrap l moved target x Hne E).
    rewrite Hfi, Hfj, !wrap_index in Hrun. specialize (Hrun x Hx).
    exists i, j, (insertAt j x (removeAt i l)).
    split; [split; [now exists x|exact Hmin]|].
    split; [exact Hj|]. split; [exact Hrun|].
    assert (Hperm : Permutation l (insertAt j x (removeAt i l))).
    { rewrite (removeAt_perm _ _ Hx) at 1. apply insertAt_perm. }
    split; [exact Hperm|]. split; [|split].
    + symmetry. now apply Permutation_length.
    + rewrite insertAt_nth by lia. now symmetry.
    + apply removeAt_insertAt. lia.
Qed.

End DragFacts.

(** ** Unique post ids *)

Section UniqueIdFacts.
Context {H : Host}.
Implicit Types (posts : list value) (ids : list string) (baseId : string).

Lemma post_ids_length posts ids :
  post_ids posts = Ok ids -> List.length ids = List.length posts.
Proof.
  revert ids. induction posts as [|p r IH]; intros ids; simpl.
  - now intros [= <-].
  - destruct (post_id p) as [i|]; simpl; [|discriminate].
    destruct (String_ i) as [s|]; simpl; [|discriminate].
    destruct (post_ids r) as [ids'|]; simpl; [|discriminate].
    intros [= <-]. simpl. now rewrite (IH ids').
Qed.

Lemma hasId_spec posts ids x :
  post_ids posts = Ok ids ->
  hasId posts x = Ok (existsb (fun s => String.eqb s x) ids).
Proof.
  unfold hasId. revert ids. induction posts as [|p r IH]; intros ids; simpl.
  - now intros [= <-].
  - destruct (post_id p) as [i|]; simpl; [|discriminate].
    destruct (String_ i) as [s|]; simpl; [|discriminate].
    destruct (post_ids r) as [ids'|]; simpl; [|discriminate].
    intros [= <-]. simpl. destruct (String.eqb s x); [reflexivity|].
    now apply IH.
Qed.

Lemma hasId_true posts ids x :
  post_ids posts = Ok ids -> In x ids -> hasId posts x = Ok true.
Proof.
  intros Hids Hin. rewrite (@hasId_spec posts ids x Hids). f_equal.
  apply existsb_exists. exists x. split; [exact Hin|apply String.eqb_refl].
Qed.

Lemma hasId_false posts ids x :
  post_ids posts = Ok ids -> ~ In x ids -> hasId posts x = Ok false.
Proof.
  intros Hids Hin. rewrite (@hasId_spec posts ids x Hids). f_equal.
  destruct (existsb _ ids) eqn:E; [|reflexivity].
  apply existsb_exists in E. destruct E as (s & Hs & Heq).
  apply String.eqb_eq in Heq. now subst.
Qed.

Lemma string_length_append (s t : string) :
  String.length (s ++ t) = String.length s + String.length t.
Proof. induction s; simpl; auto. Qed.

Lemma string_append_cancel (s t u : string) :
  (s ++ t)%string = (s ++ u)%string -> t = u.
Proof. induction s; simpl; [auto|]. intros [= E]. auto. Qed.

Lemma decimal_inj n m : decimal n = decimal m -> n = m.
Proof.
  unfold decimal. intros E.
  apply Unsigned.to_uint_inj.
  assert (Hn : forall k, Nat.to_uint k <> Decimal.Nil).
  { intros k Hk. pose proof (Unsigned.of_to k) as Hof.
    rewrite Hk in Hof. simpl in Hof. subst k. discriminate Hk. }
  pose proof (NilZero.usu _ (Hn n)) as E1.
  pose proof (NilZero.usu _ (Hn m)) as E2.
  rewrite E in E1. congruence.
Qed.

Lemma attempt_inj baseId a b : attempt baseId a = attempt baseId b -> a = b.
Proof.
  destruct a as [|a], b as [|b]; simpl; intros E; auto.
  - apply (f_equal String.length) in E. unfold candidate in E.
    rewrite string_length_append in E. simpl in E. lia.
  - apply (f_equal String.length) in E. unfold candidate in E.
    rewrite string_length_append in E. simpl in E. lia.
  - unfold candidate in E. apply string_append_cancel in E.
    injection E as E. apply decimal_inj in E. lia.
Qed.

Lemma NoDup_attempts baseId n : NoDup (map (attempt baseId) (seq 0 n)).
Proof.
  assert (Hgen : forall l, NoDup l -> NoDup (map (attempt baseId) l)).
  { induction 1 as [|x l Hx _ IH]; simpl; constructor; auto.
    intros Hin. apply in_map_iff in Hin. destruct Hin as (y & Hy & Hin).
    apply attempt_inj in Hy. now subst. }
  apply Hgen, seq_NoDup.
Qed.

(** Among the first [n] attempts either all collide, or there is a first one
    that does not. *)
Lemma first_free baseId ids n :
  (forall k, k < n -> In (attempt baseId k) ids) \/
  (exists k, k < n /\ ~ In (attempt baseId k) ids /\
             forall m, m < k -> In (attempt baseId m) ids).
Proof.
  induction n as [|n [IH|(k & Hk & Hfree & Hmin)]].
  - left. intros; lia.
  - destruct (in_dec string_dec (attempt baseId n) ids) as [Hin|Hout].
    + left. intros k Hk. destruct (Nat.eq_dec k n) as [->|]; [auto|].
      apply IH. lia.
    + right. exists n. repeat split; auto.
  - right. exists k. repeat split; auto.
Qed.

Lemma pigeonhole baseId ids :
  exists k, k <= List.length ids /\ ~ In (attempt baseId k) ids /\
            forall m, m < k -> In (attempt baseId m) ids.
Proof.
  destruct (first_free baseId ids (S (List.length ids)))
    as [Hall|(k & Hk & Hfree & Hmin)].
  - exfalso.
    assert (Hincl : incl (map (attempt baseId) (seq 0 (S (List.length ids)))) ids).
    { intros s Hs. apply in_map_iff in Hs. destruct Hs as (k & <- & Hk).
      apply in_seq in Hk. apply Hall. lia. }
    apply (NoDup_incl_length (NoDup_attempts baseId _)) in Hincl.
    rewrite length_map, length_seq in Hincl. lia.
  - exists k. repeat split; auto. lia.
Qed.

Lemma ensureUniqueId_loop_finds baseId posts ids k :
  post_ids posts = Ok ids ->
  forall k0 fuel,
    (forall m, k0 <= m < k0 + k -> In (attempt baseId m) ids) ->
    ~ In (attempt baseId (k0 + k)) ids ->
    k < fuel ->
    ensureUniqueId_loop fuel baseId posts (attempt baseId k0) (2 + k0)
    = Some (Ok (attempt baseId (k0 + k))).
Proof.
  intros Hids. induction k as [|k IH]; intros k0 fuel Hcol Hfree Hfuel;
    (destruct fuel as [|fuel]; [lia|]); cbn [ensureUniqueId_loop].
  - rewrite Nat.add_0_r in *. now rewrite (@hasId_false posts ids _ Hids Hfree).
  - rewrite (@hasId_true posts ids _ Hids) by (apply Hcol; lia).
    change (candidate baseId (2 + k0)) with (attempt baseId (S k0)).
    change (S (2 + k0)) with (2 + S k0).
    rewrite (IH (S k0) fuel).
    + now rewrite Nat.add_succ_r.
    + intros m Hm. apply Hcol. lia.
    + now rewrite Nat.add_succ_r in Hfree.
    + lia.
Qed.

(** C10.  When the ids of the stored posts can be read and converted to
    strings, [ensureUniqueId] terminates (any fuel above the number of posts
    is enough, and the result does not depend on it) and returns an id that
    is the string form of no stored id: [baseId] itself when it does not
    collide, otherwise [baseId-n] for the least [n >= 2] that does not. *)
Theorem ensureUniqueId_unique baseId posts ids :
  post_ids posts = Ok ids ->
  exists id,
    (forall fuel, List.length posts < fuel ->
                  ensureUniqueId fuel baseId posts = Some (Ok id)) /\
    ~ In id ids /\
    (~ In baseId ids -> id = baseId) /\
    (In baseId ids ->
       exists n, 2 <= n /\ id = candidate baseId n /\
                 forall m, 2 <= m < n -> In (candidate baseId m) ids).
Proof.
  intros Hids.
  destruct (pigeonhole baseId ids) as (k & Hk & Hfree & Hmin).
  rewrite (@post_ids_length posts ids Hids) in Hk.
  exists (attempt baseId k). split; [|split; [|split]].
  - intros fuel Hfuel. unfold ensureUniqueId.
    apply (@ensureUniqueId_loop_finds baseId posts ids k Hids 0 fuel);
      simpl; auto; intros; try lia. apply Hmin. lia.
  - exact Hfree.
  - intros Hbase. destruct k as [|k]; [reflexivity|].
    exfalso. apply Hbase. apply (Hmin 0). lia.
  - intros Hbase. destruct k as [|k]; [contradiction|].
    exists (2 + k). split; [lia|]. split; [reflexivity|].
    intros m Hm. replace m with (2 + (m - 2)) by lia.
    apply (Hmin (S (m - 2))). lia.
Qed.

End UniqueIdFacts.

(** * The properties on the concrete inputs *)

Section Witnesses.
Import Examples.
#[local] Existing Instance Reference.host.

Lemma migratePostsIfNeeded_idempotent_witness :
  migratePostsIfNeeded stored_data = Ok (true, migrated_data) /\
  migratePostsIfNeeded migrated_data = Ok (false, migrated_data).
Proof.
  assert (Hrun : migratePostsIfNeeded stored_data = Ok (true, migrated_data))
    by (vm_compute; reflexivity).
  split; [exact Hrun|].
  exact (@migratePostsIfNeeded_idempotent Reference.host _ _ _ Hrun).
Defined.

Lemma migratePostsIfNeeded_frame_witness :
  migratePostsIfNeeded stored_data = Ok (true, migrated_data) /\
  exists fields posts',
    migrated_data = JObj fields /\
    (forall k, k <> "posts" -> obj_get k fields = obj_get k (spread stored_data)) /\
    obj_get "posts" fields = Some (JArr (map (@JObj Z) posts')) /\
    List.length posts' = List.length (posts_of stored_data) /\
    Forall2 (fun p p' => forall k, k <> "blocks" -> k <> "content" ->
                                   obj_get k p' = obj_get k (spread p))
            (posts_of stored_data) posts'.
Proof.
  assert (Hrun : migratePostsIfNeeded stored_data = Ok (true, migrated_data))
    by (vm_compute; reflexivity).
  split; [exact Hrun|].
  exact (@migratePostsIfNeeded_frame Reference.host _ _ _ Hrun).
Defined.

Lemma migratePostsIfNeeded_double_encoded_witness :
  Reference.parse scenario1_blocks = Some (JArr [paragraph_hi]) /\
  startsWith (trim legacy_content) "[" = true /\
  @migratePostsIfNeeded Reference.host
    (JObj [("posts", JArr [scenario1_post legacy_content])]) =
  Ok (true,
      JObj [("posts",
             JArr [JObj [("blocks", JArr [paragraph_hi]);
                         ("content", JStr "hi")]])]).
Proof.
  assert (Hparse : Reference.parse scenario1_blocks = Some (JArr [paragraph_hi]))
    by (vm_compute; reflexivity).
  assert (Hlooks : startsWith (trim legacy_content) "[" = true)
    by reflexivity.
  split; [exact Hparse|]. split; [exact Hlooks|].
  exact (@migratePostsIfNeeded_double_encoded Reference.host 1%Z
           legacy_content Hparse Hlooks).
Defined.

Lemma three_blocks_text_nodes : Forall2 text_node three_blocks ["A"; ""; "B"].
Proof. repeat constructor. Defined.

Lemma extractPlainText_text_nodes_witness :
  Forall2 text_node three_blocks ["A"; ""; "B"] /\
  extractPlainTextFromBlocks (JArr (map (@JObj Z) three_blocks)) =
  Ok (String.concat newline ["A"; "B"]).
Proof.
  split; [exact three_blocks_text_nodes|].
  exact (proj1 (proj2 (@extractPlainText_text_nodes Reference.host _ _
                         three_blocks_text_nodes))).
Defined.

(** C2 as stated fails: the paragraph with empty content gives no line, so
    the text is ["A\nB"] and not ["A\n\nB"]. *)
Lemma extractPlainText_skips_empty_content :
  extractPlainTextFromBlocks (JArr (map (@JObj Z) three_blocks)) =
  Ok ("A" ++ newline ++ "B")%string /\
  extractPlainTextFromBlocks (JArr (map (@JObj Z) three_blocks)) <>
  Ok (String.concat newline ["A"; ""; "B"]).
Proof. split; [reflexivity|discriminate]. Qed.

Lemma createBlock_unknown_type_witness :
  ~ In "video" blockTypes /\
  @createBlock Reference.host 7%Z "video" =
  Ok [("id", JNum 7%Z); ("type", JStr "video"); ("size", JStr "full")].
Proof.
  assert (Hn : ~ In "video" blockTypes).
  { simpl. intros [E|[E|[E|[E|[E|[]]]]]]; discriminate E. }
  split; [exact Hn|].
  exact (@createBlock_unknown_type Reference.host 7%Z "video" Hn).
Defined.

(** C3 as stated fails: asked for the unknown type ["video"], the factory
    throws nothing and returns a block. *)
Lemma createBlock_unknown_type_returns :
  ~ In "video" blockTypes /\
  @createBlock Reference.host 7%Z "video" <> TypeError /\
  exists block, @createBlock Reference.host 7%Z "video" = Ok block.
Proof.
  split; [|split].
  - simpl. intros [E|[E|[E|[E|[E|[]]]]]]; discriminate E.
  - discriminate.
  - eexists. reflexivity.
Qed.

Lemma createBlock_defaults_witness :
  In "grid" blockTypes /\
  exists block,
    @createBlock Reference.host 7%Z "grid" = Ok block /\
    obj_get "id" block = Some (JNum 7%Z) /\
    obj_get "type" block = Some (JStr "grid") /\
    obj_get "size" block = Some (JStr "full") /\
    ("grid" = "heading" -> obj_get "level" block = Some (JNum 2%Z)) /\
    ("grid" = "columns" ->
       obj_get "columns" block = Some (JNum 2%Z) /\
       obj_get "children" block = Some (JArr [JArr []; JArr []])) /\
    ("grid" = "grid" ->
       obj_get "cols" block = Some (JNum 3%Z) /\
       obj_get "gap" block = Some (JNum 16%Z) /\
       obj_get "children" block = Some (JArr [])).
Proof.
  assert (Hin : In "grid" blockTypes) by (simpl; tauto).
  split; [exact Hin|].
  exact (@createBlock_defaults Reference.host 7%Z "grid" Hin).
Defined.

Lemma ColumnsBlock_onChange_resizes_witness :
  obj_get "children" two_columns =
    Some (JArr [JArr [JObj (text_block "paragraph" "left")]; JArr []]) /\
  exists block' ch',
    ColumnsBlock_onChange two_columns 3 = Ok block' /\
    obj_get "columns" block' = Some (JNum 3%Z) /\
    obj_get "children" block' = Some (JArr ch') /\
    List.length ch' = 3 /\
    (forall i, i < 3 -> i < 2 ->
       nth_error ch' i =
       nth_error [JArr [JObj (text_block "paragraph" "left")]; JArr []] i) /\
    (forall i, i < 3 -> 2 <= i -> nth_error ch' i = Some (JArr [])).
Proof.
  split; [reflexivity|].
  apply (@ColumnsBlock_onChange_resizes Reference.host two_columns
           [JArr [JObj (text_block "paragraph" "left")]; JArr []] 3).
  - reflexivity.
  - repeat constructor.
Defined.

Lemma handleDragEnd_same_id_noop_witness :
  (forall a b, String.eqb a b = true <-> a = b) /\
  handleDragEnd self_id String.eqb "b" (Some "b") abc = Ok (map Some abc).
Proof.
  split; [exact String.eqb_eq|].
  exact (proj1 (@handleDragEnd_same_id_noop string string self_id String.eqb
                  String.eqb_eq) abc "b").
Defined.

(** C4 as stated fails: an id that is absent from the list is not a no-op.
    With an absent moved id the last block goes to the target's position;
    with an absent target id the moved block goes to the end. *)
Lemma handleDragEnd_absent_id_moves :
  ~ In "z" (map self_id abc) /\
  handleDragEnd self_id String.eqb "z" (Some "a") abc
    = Ok [Some "c"; Some "a"; Some "b"] /\
  handleDragEnd self_id String.eqb "z" (Some "a") abc <> Ok (map Some abc) /\
  handleDragEnd self_id String.eqb "a" (Some "z") abc
    = Ok [Some "b"; Some "c"; Some "a"] /\
  handleDragEnd self_id String.eqb "a" (Some "z") abc <> Ok (map Some abc).
Proof.
  split; [|repeat split; (reflexivity || discriminate)].
  simpl. intros [E|[E|[E|[]]]]; discriminate E.
Qed.

Lemma handleDragEnd_permutation_witness :
  In "c" (map self_id abc) /\ In "a" (map self_id abc) /\
  exists i j l',
    position self_id String.eqb abc "c" i /\
    position self_id String.eqb abc "a" j /\
    handleDragEnd self_id String.eqb "c" (Some "a") abc = Ok (map Some l') /\
    Permutation abc l' /\
    List.length l' = List.length abc /\
    nth_error l' j = nth_error abc i /\
    removeAt j l' = removeAt i abc.
Proof.
  assert (Hc : In "c" (map self_id abc)) by (simpl; tauto).
  assert (Ha : In "a" (map self_id abc)) by (simpl; tauto).
  split; [exact Hc|]. split; [exact Ha|].
  exact (proj1 (@handleDragEnd_permutation string string self_id String.eqb
                  String.eqb_eq abc "c" "a" Hc Ha)).
Defined.

Lemma ensureUniqueId_unique_witness :
  post_ids three_posts = Ok ["x"; "x-2"; "5"] /\
  exists id,
    (forall fuel, List.length three_posts < fuel ->
                  ensureUniqueId fuel "x" three_posts = Some (Ok id)) /\
    ~ In id ["x"; "x-2"; "5"] /\
    (~ In "x" ["x"; "x-2"; "5"] -> id = "x") /\
    (In "x" ["x"; "x-2"; "5"] ->
       exists n, 2 <= n /\ id = candidate "x" n /\
                 forall m, 2 <= m < n -> In (candidate "x" m) ["x"; "x-2"; "5"]).
Proof.
  assert (Hids : post_ids three_posts = Ok ["x"; "x-2"; "5"])
    by (vm_compute; reflexivity).
  split; [exact Hids|].
  exact (@ensureUniqueId_unique Reference.host "x" three_posts _ Hids).
Defined.

End Witnesses.

(** * Further properties *)

(** ** Text extraction *)

Section MoreExtractorFacts.
Context {H : Host}.

Lemma depth_element (l : list value) x : In x l -> depth x < depth (JArr l).
Proof.
  intros Hin. simpl. apply Nat.lt_succ_r.
  assert (Hall : Forall (fun k => k <= list_max (map depth l)) (map depth l))
    by now apply list_max_le.
  rewrite Forall_forall in Hall. apply Hall. now apply in_map.
Qed.

Lemma depth_member (o : object) k v :
  obj_get k o = Some v -> depth v < depth (JObj o).
Proof.
  intros Hget. simpl. apply Nat.lt_succ_r. unfold list_max.
  induction o as [|[k' v'] r IH]; simpl in Hget; [discriminate|].
  simpl. destruct (String.eqb k k').
  - injection Hget as ->. lia.
  - specialize (IH Hget). lia.
Qed.

Lemma forEach_app {A S} (f : A -> S -> outcome S) a b s :
  forEach f (a ++ b) s = (s' <- forEach f a s ;; forEach f b s').
Proof.
  revert s. induction a as [|x r IH]; intros s; simpl; [reflexivity|].
  destruct (f x s); simpl; auto.
Qed.

(** A traversal whose steps only append, whatever they are given, only
    appends. *)
Lemma forEach_accumulates {A} (f : A -> list string -> outcome (list string)) l :
  (forall x, In x l -> forall lines,
      f x lines = (added <- f x [] ;; Ok (lines ++ added))) ->
  forall lines,
    forEach f l lines = (added <- forEach f l [] ;; Ok (lines ++ added)).
Proof.
  induction l as [|x r IH]; intros Hf lines; simpl.
  - now rewrite app_nil_r.
  - rewrite (Hf x (or_introl eq_refl) lines).
    destruct (f x []) as [a|]; simpl; [|reflexivity].
    assert (Hr : forall y, In y r -> forall ls,
                   f y ls = (added <- f y [] ;; Ok (ls ++ added)))
      by (intros; apply Hf; now right).
    rewrite (IH Hr (lines ++ a)), (IH Hr a).
    destruct (forEach f r []) as [b|]; simpl; [|reflexivity].
    now rewrite app_assoc.
Qed.

Lemma walk_array l lines : walk (JArr l) lines = forEach walk l lines.
Proof. reflexivity. Qed.

Lemma walk_accumulates_depth n :
  forall v, depth v <= n ->
  forall lines, walk v lines = (added <- walk v [] ;; Ok (lines ++ added)).
Proof.
  induction n as [|n IH]; intros v Hd lines.
  - destruct v; simpl in Hd; try lia; simpl;
      repeat match goal with
             | |- context [if ?b then _ else _] => destruct b
             end; simpl; now rewrite ?app_nil_r.
  - destruct v as [| b | x | s | l | o].
    1-4: simpl;
      repeat match goal with
             | |- context [if ?b then _ else _] => destruct b
             end; simpl; now rewrite ?app_nil_r.
    + rewrite !walk_array. apply forEach_accumulates.
      intros x Hx ls. apply IH.
      pose proof (depth_element _ _ Hx). lia.
    + cbn [walk ToBoolean negb].
      destruct (type_is o "heading" || type_is o "paragraph").
      { destruct (obj_get "content" o) as [c|]; [|simpl; now rewrite app_nil_r].
        destruct (ToBoolean c); [|simpl; now rewrite app_nil_r].
        destruct (ToString c); simpl; reflexivity. }
      destruct (type_is o "columns").
      { rewrite !obj_case_get.
        destruct (obj_get "children" o) as [ch|] eqn:Hch;
          [|simpl; now rewrite app_nil_r].
        pose proof (depth_member _ _ Hch) as Hdch.
        destruct ch as [| | | |cols|]; try (simpl; now rewrite app_nil_r).
        apply forEach_accumulates. intros col Hcol ls.
        pose proof (depth_element _ _ Hcol) as Hdcol.
        destruct col as [| | | |bl|]; try (simpl; now rewrite app_nil_r).
        apply forEach_accumulates. intros b Hb ls'. apply IH.
        pose proof (depth_element _ _ Hb). lia. }
      destruct (type_is o "grid"); [|simpl; now rewrite app_nil_r].
      rewrite !obj_case_get.
      destruct (obj_get "children" o) as [ch|] eqn:Hch;
        [|simpl; now rewrite app_nil_r].
      pose proof (depth_member _ _ Hch) as Hdch.
      destruct ch as [| | | |l|]; try (simpl; now rewrite app_nil_r).
      apply forEach_accumulates. intros b Hb ls. apply IH.
      pose proof (depth_element _ _ Hb). lia.
Qed.

(** X1.  [walk] only appends to the lines it is given, and what it appends
    does not depend on them: a run from any [lines] is the run from no lines
    put after [lines], and it throws exactly when that run throws. *)
Theorem walk_accumulates (v : value) (lines : list string) :
  walk v lines = (added <- walk v [] ;; Ok (lines ++ added)).
Proof. apply (walk_accumulates_depth (n := depth v)). lia. Qed.

End MoreExtractorFacts.

Section ExtractorTotality.
Context {H : Host}.

Lemma forEach_returns {A S} (f : A -> S -> outcome S) l :
  (forall x, In x l -> forall s, exists s', f x s = Ok s') ->
  forall s, exists s', forEach f l s = Ok s'.
Proof.
  induction l as [|x r IH]; intros Hf s; simpl; [eauto|].
  destruct (Hf x (or_introl eq_refl) s) as [s1 ->]. simpl.
  apply IH. intros; apply Hf; now right.
Qed.

Lemma no_toString_element (l : list value) x :
  no_toString (JArr l) = true -> In x l -> no_toString x = true.
Proof. simpl. intros Hall Hin. rewrite forallb_forall in Hall. auto. Qed.

Lemma no_toString_member (o : object) k v :
  no_toString (JObj o) = true -> obj_get k o = Some v -> no_toString v = true.
Proof.
  simpl. destruct (obj_get "toString" o); [discriminate|].
  intros Hall Hget. rewrite forallb_forall in Hall.
  induction o as [|[k' v'] r IH]; simpl in Hget; [discriminate|].
  destruct (String.eqb k k').
  - injection Hget as <-. apply (Hall (k', v')). now left.
  - apply IH; auto. intros kv Hkv. apply Hall. now right.
Qed.

Lemma ToString_returns_depth n :
  forall v, depth v <= n -> no_toString v = true -> exists s, ToString v = Ok s.
Proof.
  induction n as [|n IH]; intros v Hd Hsafe;
    destruct v as [| [|] | x | s | l | o]; simpl in Hd; try lia;
    try (simpl; eauto; fail).
  - cbn [ToString].
    destruct (forEach_returns
                (fun x acc =>
                   s <- match x with JNull => Ok "" | _ => ToString x end ;;
                   Ok (acc ++ [s])) l) with (s := @nil string) as [parts ->].
    + intros x Hx acc.
      assert (Hs : exists s, ToString x = Ok s).
      { apply IH; [|eapply no_toString_element; eauto].
        pose proof (depth_element _ _ Hx). simpl in *. lia. }
      destruct Hs as [s Hs]. destruct x; try rewrite Hs; simpl; eauto.
    + simpl. eauto.
  - simpl in *. destruct (obj_get "toString" o); [discriminate|eauto].
Qed.

Lemma walk_returns_depth n :
  forall v, depth v <= n -> no_toString v = true ->
  forall lines, exists lines', walk v lines = Ok lines'.
Proof.
  induction n as [|n IH]; intros v Hd Hsafe lines.
  - destruct v; simpl in Hd; try lia; simpl;
      repeat match goal with
             | |- context [if ?b then _ else _] => destruct b
             end; eauto.
  - destruct v as [| b | x | s | l | o].
    1-4: simpl;
      repeat match goal with
             | |- context [if ?b then _ else _] => destruct b
             end; eauto.
    + rewrite walk_array. apply forEach_returns.
      intros x Hx ls. apply IH; [|eapply no_toString_element; eauto].
      pose proof (depth_element _ _ Hx). lia.
    + cbn [walk ToBoolean negb].
      destruct (type_is o "heading" || type_is o "paragraph").
      { destruct (obj_get "content" o) as [c|] eqn:Hc; [|eauto].
        destruct (ToBoolean c); [|eauto].
        destruct (ToString_returns_depth (n := depth c) c) as [s ->];
          [lia|eapply no_toString_member; eauto|].
        simpl. eauto. }
      destruct (type_is o "columns").
      { rewrite obj_case_get.
        destruct (obj_get "children" o) as [ch|] eqn:Hch; [|eauto].
        pose proof (depth_member _ _ Hch) as Hdch.
        pose proof (no_toString_member _ _ Hsafe Hch) as Hsch.
        destruct ch as [| | | |cols|]; eauto.
        apply forEach_returns. intros col Hcol ls.
        pose proof (depth_element _ _ Hcol) as Hdcol.
        pose proof (no_toString_element _ _ Hsch Hcol) as Hscol.
        destruct col as [| | | |bl|]; eauto.
        apply forEach_returns. intros b Hb ls'.
        apply IH; [|eapply no_toString_element; eauto].
        pose proof (depth_element _ _ Hb). lia. }
      destruct (type_is o "grid"); [|eauto].
      rewrite obj_case_get.
      destruct (obj_get "children" o) as [ch|] eqn:Hch; [|eauto].
      pose proof (depth_member _ _ Hch) as Hdch.
      pose proof (no_toString_member _ _ Hsafe Hch) as Hsch.
      destruct ch as [| | | |l|]; eauto.
      apply forEach_returns. intros b Hb ls.
      apply IH; [|eapply no_toString_element; eauto].
      pose proof (depth_element _ _ Hb). lia.
Qed.

(** X2.  Text extraction cannot throw on a value in which no object has an
    own property named [toString]: it returns a text. *)
Theorem extractPlainText_returns (blocks : value) :
  no_toString blocks = true ->
  exists text, extractPlainTextFromBlocks blocks = Ok text.
Proof.
  intros Hsafe. unfold extractPlainTextFromBlocks.
  destruct (walk_returns_depth (n := depth blocks) blocks (le_n _) Hsafe [])
    as [lines ->].
  simpl. eauto.
Qed.

Lemma type_is_exclusive (o : object) a b :
  type_is o a = true -> a <> b -> type_is o b = false.
Proof.
  unfold type_is. destruct (obj_get "type" o) as [[| | |s| |]|]; try discriminate.
  intros Ha Hab. apply String.eqb_eq in Ha. subst s.
  now apply String.eqb_neq.
Qed.

Lemma forEach_flat_map {A B S} (f : B -> S -> outcome S) (g : A -> list B) l s :
  forEach f (flat_map g l) s = forEach (fun x s => forEach f (g x) s) l s.
Proof.
  revert s. induction l as [|x r IH]; intros s; simpl; [reflexivity|].
  rewrite forEach_app. destruct (forEach f (g x) s); simpl; auto.
Qed.

Lemma walk_columns (o : object) cols lines :
  type_is o "columns" = true ->
  obj_get "children" o = Some (JArr cols) ->
  walk (JObj o) lines = forEach walk (columns_blocks cols) lines.
Proof.
  intros Hty Hch. cbn [walk ToBoolean negb].
  rewrite (type_is_exclusive _ (b := "heading") Hty) by discriminate.
  rewrite (type_is_exclusive _ (b := "paragraph") Hty) by discriminate.
  rewrite Hty. cbn [orb]. rewrite obj_case_get, Hch.
  unfold columns_blocks. rewrite forEach_flat_map.
  clear. revert lines. induction cols as [|col r IH]; intros lines; simpl;
    [reflexivity|].
  destruct col; simpl; try apply IH.
  destruct (forEach walk elements lines); simpl; auto.
Qed.

Lemma walk_grid (o : object) ch lines :
  type_is o "grid" = true ->
  obj_get "children" o = Some (JArr ch) ->
  walk (JObj o) lines = forEach walk ch lines.
Proof.
  intros Hty Hch. cbn [walk ToBoolean negb].
  rewrite (type_is_exclusive _ (b := "heading") Hty) by discriminate.
  rewrite (type_is_exclusive _ (b := "paragraph") Hty) by discriminate.
  rewrite (type_is_exclusive _ (b := "columns") Hty) by discriminate.
  rewrite Hty. cbn [orb]. now rewrite obj_case_get, Hch.
Qed.

(** X3.  Layout does not show in the text: in any sequence, a columns block
    reads as the blocks of its columns, column after column, and a grid reads
    as its children. *)
Theorem extractPlainText_containers (o : object) (inner : list value)
  (before after : list value) :
  (type_is o "columns" = true /\
   exists cols, obj_get "children" o = Some (JArr cols) /\
                inner = columns_blocks cols) \/
  (type_is o "grid" = true /\ obj_get "children" o = Some (JArr inner)) ->
  extractPlainTextFromBlocks (JArr (before ++ JObj o :: after)) =
  extractPlainTextFromBlocks (JArr (before ++ inner ++ after)).
Proof.
  intros Hshape. unfold extractPlainTextFromBlocks. f_equal.
  rewrite !walk_array, !forEach_app.
  destruct (forEach walk before []) as [ls|]; cbn [bind]; [|reflexivity].
  rewrite forEach_app.
  change (forEach walk (JObj o :: after) ls)
    with (s' <- walk (JObj o) ls ;; forEach walk after s').
  destruct Hshape as [[Hty (cols & Hch & ->)]|[Hty Hch]].
  - now rewrite (@walk_columns o cols ls Hty Hch).
  - now rewrite (@walk_grid o inner ls Hty Hch).
Qed.

End ExtractorTotality.

(** ** Migration and request bodies *)

Section MoreServerFacts.
Context {H : Host}.

Lemma obj_set_same_value (k : string) (v : value) (o : object) :
  obj_get k o = Some v -> obj_set k v o = o.
Proof.
  induction o as [|[k' v'] r IH]; simpl; [discriminate|].
  destruct (String.eqb k k').
  - now intros [= ->].
  - intros Hget. now rewrite IH.
Qed.

Lemma map_JObj_inj (ps qs : list object) :
  map (@JObj number) ps = map (@JObj number) qs -> ps = qs.
Proof.
  revert qs. induction ps as [|p r IH]; intros [|q qs]; simpl;
    try discriminate; [reflexivity|].
  intros [= -> E]. now rewrite (IH _ E).
Qed.

(** When the loop body reports a change, [blocks] was not an array and has
    become one. *)
Lemma migratePost_changed (post post' : object) :
  migratePost post = Ok (true, post') -> post' <> post.
Proof.
  unfold migratePost, bind. intros Hrun.
  repeat break_match_hyp Hrun; array_inv; obj_simpl; try discriminate;
    injection Hrun; intros; try congruence; subst;
    intros E; apply (f_equal (obj_get "blocks")) in E; obj_simpl; congruence.
Qed.

Lemma migratePost_unchanged (post post' : object) :
  migratePost post = Ok (false, post') -> post' = post.
Proof.
  unfold migratePost, bind. intros Hrun.
  repeat break_match_hyp Hrun; try discriminate;
    injection Hrun; intros; congruence.
Qed.

Lemma migrateLoop_flag_kept (posts posts' : list object) c :
  migrateLoop posts true = Ok (c, posts') -> c = true.
Proof.
  revert c posts'. induction posts as [|p r IH]; intros c posts'; simpl.
  - now intros [= <-].
  - destruct (migratePost p) as [[cp p']|]; simpl; [|discriminate].
    destruct (migrateLoop r true) as [[c1 r']|] eqn:Hr; simpl; [|discriminate].
    intros [= <- _]. eapply IH; eauto.
Qed.

Lemma migrateLoop_unchanged (posts posts' : list object) c0 :
  migrateLoop posts c0 = Ok (false, posts') -> posts' = posts.
Proof.
  revert c0 posts'. induction posts as [|p r IH]; intros c0 posts'; simpl.
  - now intros [= _ <-].
  - destruct (migratePost p) as [[cp p']|] eqn:Hp; simpl; [|discriminate].
    destruct (migrateLoop r (c0 || cp)) as [[c1 r']|] eqn:Hr; simpl;
      [|discriminate].
    intros [= -> <-]. destruct cp.
    + rewrite orb_true_r in Hr. now apply migrateLoop_flag_kept in Hr.
    + now rewrite (@migratePost_unchanged _ _ Hp), (IH _ _ Hr).
Qed.

Lemma migrateLoop_same (posts : list object) c0 c :
  migrateLoop posts c0 = Ok (c, posts) -> c = c0.
Proof.
  revert c0 c. induction posts as [|p r IH]; intros c0 c; simpl.
  - now intros [= <-].
  - destruct (migratePost p) as [[cp p']|] eqn:Hp; simpl; [|discriminate].
    destruct (migrateLoop r (c0 || cp)) as [[c1 r']|] eqn:Hr; simpl;
      [|discriminate].
    intros [= -> -> ->]. destruct cp.
    + now apply migratePost_changed in Hp.
    + rewrite orb_false_r in Hr. eapply IH; eauto.
Qed.

(** X4.  The [changed] flag is exact: for a stored document whose posts are
    objects, migration reports [changed = false] exactly when the document
    it returns is the document it was given (so [GET /api/posts] skips the
    save exactly when there is nothing to save). *)
Theorem migratePostsIfNeeded_changed_exact (o : object) (ps : list object)
  (changed : bool) (out : value) :
  document o ps ->
  migratePostsIfNeeded (JObj o) = Ok (changed, out) ->
  (changed = false <-> out = JObj o).
Proof.
  unfold document, migratePostsIfNeeded. intros Hdoc.
  cbn [spread]. unfold copyPosts. rewrite Hdoc, spread_JObj.
  destruct (migrateLoop ps false) as [[c ps']|] eqn:Hl; simpl; [|discriminate].
  intros [= <- <-]. split.
  - intros ->. rewrite (@migrateLoop_unchanged _ _ _ Hl).
    now rewrite (@obj_set_same_value "posts" _ o Hdoc).
  - intros [= E]. apply (f_equal (obj_get "posts")) in E.
    rewrite obj_get_set_same, Hdoc in E. injection E as E.
    apply map_JObj_inj in E. subst ps'.
    now apply migrateLoop_same in Hl.
Qed.

(** X5.  What [parseBlocksAndPlainTextFromBody] returns hangs together:
    [plain] is [null] exactly when [blocks] is; otherwise [blocks] is truthy
    and [plain] is its extracted text; and a [blocks] field that already is
    an array is returned as it is, whatever [content] holds. *)
Theorem parseBlocksAndPlainTextFromBody_contract (body : option value)
  (blocks : value) (plain : option string) :
  parseBlocksAndPlainTextFromBody body = Ok (blocks, plain) ->
  (plain = None <-> blocks = JNull) /\
  (forall text, plain = Some text ->
     ToBoolean blocks = true /\ extractPlainTextFromBlocks blocks = Ok text) /\
  (forall l, truthy body = true -> prop body "blocks" = Some (JArr l) ->
     blocks = JArr l).
Proof.
  unfold parseBlocksAndPlainTextFromBody.
  set (b1 := if truthy body && truthy (prop body "blocks") then _ else _).
  set (b2 := if negb (ToBoolean b1) && truthy body then _ else _).
  intros Hrun.
  assert (Harr : forall l, truthy body = true ->
                   prop body "blocks" = Some (JArr l) -> b2 = JArr l).
  { intros l Hb Hl. unfold b2, b1. rewrite Hb, Hl. reflexivity. }
  destruct (ToBoolean b2) eqn:Htruthy.
  - destruct (extractPlainTextFromBlocks b2) as [text|] eqn:Htext;
      simpl in Hrun; [|discriminate].
    injection Hrun as <- <-. split; [|split].
    + split; [discriminate|]. intros E. rewrite E in Htruthy. discriminate.
    + intros t [= <-]. auto.
    + exact Harr.
  - injection Hrun as <- <-. split; [|split].
    + tauto.
    + discriminate.
    + intros l Hb Hl. rewrite (Harr l Hb Hl) in Htruthy. discriminate.
Qed.

End MoreServerFacts.

(** ** The post handlers *)

Section HandlerFacts.
Context {H : Host}.
Variable parseInt : value -> outcome (option number).
Variable Number_eqb : number -> number -> bool.

Lemma post_ids_app (a b : list value) :
  post_ids (a ++ b) =
  (ia <- post_ids a ;; ib <- post_ids b ;; Ok (ia ++ ib)).
Proof.
  induction a as [|p r IH]; simpl.
  - now destruct (post_ids b).
  - destruct (post_id p) as [i|]; simpl; [|reflexivity].
    destruct (String_ i) as [s|]; simpl; [|reflexivity].
    rewrite IH. destruct (post_ids r); simpl; [|reflexivity].
    now destruct (post_ids b).
Qed.

(** The search of the handlers, on the posts, is the search of their id
    texts. *)
Lemma findIndexM_post_ids (l : list value) (ids : list string) postId :
  post_ids l = Ok ids ->
  findIndexM (fun p => idv <- member p "id" ;;
                       s <- String_ idv ;;
                       Ok (String.eqb s postId)) l
  = Ok (findIndex (fun s => String.eqb s postId) ids).
Proof.
  revert ids. induction l as [|p r IH]; intros ids; simpl.
  - now intros [= <-].
  - change (member p "id") with (post_id p).
    destruct (post_id p) as [i|]; simpl; [|discriminate].
    destruct (String_ i) as [s|]; simpl; [|discriminate].
    destruct (post_ids r) as [ids'|]; simpl; [|discriminate].
    intros [= <-]. simpl. destruct (String.eqb s postId); [reflexivity|].
    now rewrite (IH ids' eq_refl).
Qed.

Lemma ensureUniqueId_loop_free fuel baseId (posts : list value) id n r :
  ensureUniqueId_loop fuel baseId posts id n = Some (Ok r) ->
  hasId posts r = Ok false.
Proof.
  revert id n. induction fuel as [|fuel IH]; intros id n; simpl;
    [discriminate|].
  destruct (hasId posts id) as [[|]|] eqn:Hid; try discriminate.
  - apply IH.
  - now intros [= <-].
Qed.

Lemma hasId_false_ids (posts : list value) x :
  hasId posts x = Ok false ->
  exists ids, post_ids posts = Ok ids /\ ~ In x ids.
Proof.
  unfold hasId. induction posts as [|p r IH]; simpl.
  - intros _. exists []. auto.
  - destruct (post_id p) as [i|]; simpl; [|discriminate].
    destruct (String_ i) as [s|]; simpl; [|discriminate].
    destruct (String.eqb_spec s x) as [->|Hne]; [discriminate|].
    intros Hr. destruct (IH Hr) as (ids & -> & Hout). simpl.
    exists (s :: ids). split; [reflexivity|]. intros [E|E]; auto.
Qed.

Lemma ensureUniqueId_returns fuel baseId (posts : list value) ids :
  post_ids posts = Ok ids ->
  List.length posts < fuel ->
  exists id, ensureUniqueId fuel baseId posts = Some (Ok id) /\ ~ In id ids.
Proof.
  intros Hids Hfuel.
  destruct (pigeonhole baseId ids) as (k & Hk & Hfree & Hmin).
  rewrite (@post_ids_length _ posts ids Hids) in Hk.
  exists (attempt baseId k). split; [|exact Hfree].
  apply (@ensureUniqueId_loop_finds _ baseId posts ids k Hids 0 fuel);
    simpl; auto; intros; try lia. apply Hmin. lia.
Qed.

Lemma first_index_last (ids : list string) x :
  ~ In x ids ->
  first_index (fun s => String.eqb s x) (ids ++ [x]) (List.length ids).
Proof.
  intros Hout. split.
  - exists x. rewrite nth_error_app2, Nat.sub_diag by lia.
    split; [reflexivity|apply String.eqb_refl].
  - intros k y Hk Hy. rewrite nth_error_app1 in Hy by lia.
    apply String.eqb_neq. intros ->. apply Hout.
    eapply nth_error_In; eauto.
Qed.

Lemma splice_remove_one {T} (l : list T) i x :
  nth_error l i = Some x ->
  snd (splice l (Z.of_nat i) 1 []) = removeAt i l.
Proof.
  intros Hx. assert (Hi : i < List.length l)
    by (apply nth_error_Some; congruence).
  rewrite (@splice_at T l (Z.of_nat i) 1 [] i 1).
  - simpl. unfold removeAt. now replace (i + 1) with (S i) by lia.
  - destruct (Z.ltb_spec (Z.of_nat i) 0); lia.
  - lia.
Qed.

Lemma removeAt_last {T} (l : list T) x : removeAt (List.length l) (l ++ [x]) = l.
Proof. rewrite removeAt_split. apply app_nil_r. Qed.

End HandlerFacts.

Section PostHandlerFacts.
Context {H : Host}.
Variable parseInt : value -> outcome (option number).

(** X6.  [POST /api/posts] on a store whose ids can be read, for a request
    that can be read: with fuel above the number of posts the handler
    answers with a new post; the saved document differs from the old one
    only in that this post is appended to [posts]; and the id of the new
    post is a string that is the text of no id already there, so the id
    texts stay pairwise distinct if they were. *)
Theorem post_api_posts_appends (fuel : nat) (o b : object) (l : list value)
  (ids : list string) (file : option string) (defaultId date : string)
  (parsed : value * option string) (idtext : string) (n : option number) :
  obj_get "posts" o = Some (JArr l) ->
  post_ids l = Ok ids ->
  parseBlocksAndPlainTextFromBody (Some (JObj b)) = Ok parsed ->
  String_ (obj_get "id" b) = Ok idtext ->
  match obj_get "sectionId" b with
  | Some v => parseInt v
  | None => Ok None
  end = Ok n ->
  List.length l < fuel ->
  exists id newPost,
    post_api_posts parseInt fuel (JObj o) (JObj b) file defaultId date =
    Some (Ok (JObj (obj_set "posts" (JArr (l ++ [JObj newPost])) o), newPost)) /\
    obj_get "id" newPost = Some (JStr id) /\
    ~ In id ids /\
    post_ids (l ++ [JObj newPost]) = Ok (ids ++ [id]) /\
    (NoDup ids -> NoDup (ids ++ [id])).
Proof.
  intros Hposts Hids Hparsed Hidtext Hn Hfuel.
  assert (Hraw : exists raw,
             match obj_get "id" b with
             | Some _ => s <- String_ (obj_get "id" b) ;; Ok (trim s)
             | None => Ok ""
             end = Ok raw).
  { rewrite Hidtext. destruct (obj_get "id" b); simpl; eauto. }
  destruct Hraw as [raw Hraw].
  destruct (@ensureUniqueId_returns _ fuel
              (if String.eqb raw "" then defaultId else raw) l ids Hids Hfuel)
    as (id & Hid & Hfree).
  exists id. eexists. split.
  { unfold post_api_posts. unfold value in *. rewrite Hparsed. cbn [bind member].
    rewrite Hraw. cbn [bind]. rewrite Hposts.
    unfold posts_or_empty. cbn [truthy ToBoolean bind].
    rewrite Hid, Hn. cbn [bind]. reflexivity. }
  split; [reflexivity|]. split; [exact Hfree|]. split.
  - rewrite post_ids_app, Hids. reflexivity.
  - intros Hnd. apply NoDup_app; auto.
    + repeat constructor. auto.
    + intros x Hx [<-|[]]. contradiction.
Qed.

End PostHandlerFacts.

Section DeleteHandlerFacts.
Context {H : Host}.
Variable parseInt : value -> outcome (option number).

Lemma member_obj (o : object) k : member (JObj o) k = Ok (obj_get k o).
Proof. reflexivity. Qed.

Lemma post_ids_nth (l : list value) ids i p :
  post_ids l = Ok ids -> nth_error l i = Some p ->
  exists idv s, post_id p = Ok idv /\ String_ idv = Ok s /\
                nth_error ids i = Some s.
Proof.
  revert ids i. induction l as [|q r IH]; intros ids i; simpl.
  - destruct i; discriminate.
  - destruct (post_id q) as [iq|] eqn:Hq; simpl; [|discriminate].
    destruct (String_ iq) as [s|] eqn:Hs; simpl; [|discriminate].
    destruct (post_ids r) as [ids'|]; simpl; [|discriminate].
    intros [= <-]. destruct i as [|i]; simpl.
    + intros [= <-]. eauto.
    + intros Hp. apply (IH ids' i eq_refl Hp).
Qed.

Lemma post_ids_removeAt (l : list value) ids i :
  post_ids l = Ok ids -> post_ids (removeAt i l) = Ok (removeAt i ids).
Proof.
  revert ids i. induction l as [|q r IH]; intros ids i; simpl.
  - intros [= <-]. now destruct i.
  - destruct (post_id q) as [iq|] eqn:Hq; simpl; [|discriminate].
    destruct (String_ iq) as [s|] eqn:Hs; simpl; [|discriminate].
    destruct (post_ids r) as [ids'|] eqn:Hr; simpl; [|discriminate].
    intros [= <-]. destruct i as [|i].
    + unfold removeAt. simpl. exact Hr.
    + unfold removeAt in *.
      change (firstn (S i) (q :: r)) with (q :: firstn i r).
      change (skipn (S (S i)) (q :: r)) with (skipn (S i) r).
      change (firstn (S i) (s :: ids')) with (s :: firstn i ids').
      change (skipn (S (S i)) (s :: ids')) with (skipn (S i) ids').
      cbn [app post_ids].
      rewrite Hq. cbn [bind]. rewrite Hs. cbn [bind].
      now rewrite (IH ids' i eq_refl).
Qed.

(** X7.  [DELETE /api/posts/:id] on a store whose ids can be read.  When no
    post has the id text, the answer is 404 and nothing is saved.  Otherwise
    the first post with that id text is taken out and the others stay, in
    order, so the id texts lose exactly that entry; if the id texts were
    pairwise distinct, the id is gone from the store. *)
Theorem delete_api_posts_removes (o : object) (l : list value)
  (ids : list string) (postId : string) :
  obj_get "posts" o = Some (JArr l) ->
  post_ids l = Ok ids ->
  (~ In postId ids -> delete_api_posts (JObj o) postId = Ok NotFound) /\
  (forall i p,
      first_index (fun s => String.eqb s postId) ids i ->
      nth_error l i = Some (JObj p) ->
      (forall v, obj_get "image" p = Some v -> ToBoolean v = true ->
                 exists path, v = JStr path) ->
      exists unlink,
        delete_api_posts (JObj o) postId =
        Ok (Done (JObj (obj_set "posts" (JArr (removeAt i l)) o), unlink)) /\
        post_ids (removeAt i l) = Ok (removeAt i ids) /\
        (NoDup ids -> ~ In postId (removeAt i ids))).
Proof.
  intros Hposts Hids. split.
  - intros Hout. unfold delete_api_posts, findPost.
    rewrite member_obj. cbn [bind]. rewrite Hposts.
    pose proof (@findIndexM_post_ids _ l ids postId Hids) as Hfind.
    unfold value in *. rewrite Hfind. cbn [bind].
    rewrite findIndex_absent; [reflexivity|].
    intros s Hs. apply String.eqb_neq. intros ->. contradiction.
  - intros i p Hi Hp Himg.
    assert (Hrun : exists unlink,
               delete_api_posts (JObj o) postId =
               Ok (Done (JObj (obj_set "posts" (JArr (removeAt i l)) o),
                         unlink))).
    { unfold delete_api_posts, findPost.
      rewrite member_obj. cbn [bind]. rewrite Hposts.
      pose proof (@findIndexM_post_ids _ l ids postId Hids) as Hfind.
      unfold value in *. rewrite Hfind. cbn [bind].
      rewrite (findIndex_first Hi).
      destruct (Z.eqb_spec (Z.of_nat i) (-1)); [lia|].
      rewrite Nat2Z.id, Hp. rewrite member_obj. cbn [bind].
      rewrite (splice_remove_one _ _ Hp).
      destruct (obj_get "image" p) as [v|] eqn:Hv; cbn [truthy].
      - destruct (ToBoolean v) eqn:Ht.
        + destruct (Himg v eq_refl Ht) as [path ->]. cbn [bind]. eauto.
        + cbn [bind]. eauto.
      - cbn [bind]. eauto. }
    destruct Hrun as [unlink Hrun]. exists unlink.
    split; [exact Hrun|]. split; [now apply post_ids_removeAt|].
    intros Hnd Hin. destruct Hi as [(s & Hs & Heq) _].
    apply String.eqb_eq in Heq. subst s.
    destruct (nth_error_split _ _ Hs) as (l1 & l2 & -> & <-).
    rewrite removeAt_split in Hin.
    apply NoDup_remove_2 in Hnd. contradiction.
Qed.

(** X8.  Deleting what was just posted gives back the store: when
    [POST /api/posts] answers with a new post, [DELETE] of that post's id
    finds it, saves the document as it was before the post, and unlinks the
    uploaded image if there was one. *)
Theorem post_then_delete (fuel : nat) (data body : value)
  (file : option string) (defaultId date : string) (data' : value)
  (newPost : object) :
  post_api_posts parseInt fuel data body file defaultId date
  = Some (Ok (data', newPost)) ->
  exists id,
    obj_get "id" newPost = Some (JStr id) /\
    delete_api_posts data' id =
    Ok (Done (data, option_map (fun name => "/uploads/" ++ name)%string file)).
Proof.
  unfold post_api_posts. intros Hrun.
  destruct (parseBlocksAndPlainTextFromBody (Some body)) as [parsed|];
    cbn [bind] in Hrun; [|discriminate].
  destruct (member body "id") as [idv|]; cbn [bind] in Hrun; [|discriminate].
  destruct (match idv with
            | Some _ => s <- String_ idv ;; Ok (trim s)
            | None => Ok ""
            end) as [raw|]; cbn [bind] in Hrun; [|discriminate].
  destruct (member data "posts") as [posts|] eqn:Hposts; cbn [bind] in Hrun;
    [|discriminate].
  destruct (posts_or_empty posts) as [existing|] eqn:Hex; cbn [bind] in Hrun;
    [|discriminate].
  destruct (ensureUniqueId fuel _ existing) as [[id|]|] eqn:Hid;
    try discriminate.
  destruct (member body "title") as [title|]; cbn [bind] in Hrun;
    [|discriminate].
  destruct (member body "content") as [content|]; cbn [bind] in Hrun;
    [|discriminate].
  destruct (member body "sectionId") as [sectionId|]; cbn [bind] in Hrun;
    [|discriminate].
  destruct (match sectionId with
            | Some v => parseInt v
            | None => Ok None
            end) as [n|]; cbn [bind] in Hrun; [|discriminate].
  destruct data as [| | | | |o]; try discriminate.
  destruct posts as [[| | | |l|]|]; try discriminate.
  injection Hrun as Hdata Hnew. subst data'. rewrite Hnew.
  assert (Hid' : obj_get "id" newPost = Some (JStr id))
    by (now rewrite <- Hnew).
  assert (Himage : obj_get "image" newPost =
                   Some match file with
                        | Some name => JStr ("/uploads/" ++ name)
                        | None => JNull
                        end)
    by (rewrite <- Hnew; now destruct file).
  clear Hnew.
  exists id. split; [exact Hid'|].
  rewrite member_obj in Hposts. injection Hposts as Hposts.
  assert (existing = l) as ->.
  { unfold posts_or_empty in Hex. simpl in Hex. congruence. }
  apply ensureUniqueId_loop_free, hasId_false_ids in Hid.
  destruct Hid as (ids & Hids & Hfree).
  assert (Hids' : post_ids (l ++ [JObj newPost]) = Ok (ids ++ [id])).
  { etransitivity; [apply (post_ids_app l [JObj newPost])|].
    rewrite Hids. cbn [post_ids post_id bind]. rewrite Hid'. reflexivity. }
  unfold delete_api_posts, findPost.
  rewrite member_obj. cbn [bind]. rewrite obj_get_set_same.
  pose proof (@findIndexM_post_ids _ _ _ id Hids') as Hfind.
  unfold value in *. rewrite Hfind. cbn [bind].
  rewrite (findIndex_first (@first_index_last ids id Hfree)).
  destruct (Z.eqb_spec (Z.of_nat (List.length ids)) (-1)); [lia|].
  rewrite Nat2Z.id.
  assert (Hlen : List.length ids = List.length l)
    by (eapply post_ids_length; eauto).
  rewrite Hlen, nth_error_app2, Nat.sub_diag by lia. cbn [nth_error].
  rewrite (@splice_remove_one _ (l ++ [JObj newPost]) (List.length l)
             (JObj newPost))
    by (now rewrite nth_error_app2, Nat.sub_diag by lia).
  rewrite removeAt_last, obj_set_set_same.
  rewrite (@obj_set_same_value _ "posts" _ o Hposts).
  rewrite member_obj, Himage. cbn [bind].
  destruct file as [name|]; reflexivity.
Qed.

End DeleteHandlerFacts.

Section PutHandlerFacts.
Context {H : Host}.
Variable parseInt : value -> outcome (option number).

Lemma obj_get_set_opt_other (k k' : string) (x : option value) (o : object) :
  k <> k' -> obj_get k (obj_set_opt k' x o) = obj_get k o.
Proof.
  intros Hk. destruct x; simpl; [now apply obj_get_set_other|reflexivity].
Qed.

Lemma post_ids_replace (l : list value) ids i p q :
  post_ids l = Ok ids ->
  nth_error l i = Some p ->
  post_id q = post_id p ->
  post_ids (firstn i l ++ q :: skipn (S i) l) = Ok ids.
Proof.
  revert ids i. induction l as [|x r IH]; intros ids i; simpl.
  - destruct i; discriminate.
  - destruct (post_id x) as [ix|] eqn:Hx; simpl; [|discriminate].
    destruct (String_ ix) as [s|] eqn:Hs; simpl; [|discriminate].
    destruct (post_ids r) as [ids'|] eqn:Hr; simpl; [|discriminate].
    intros [= <-]. destruct i as [|i].
    + intros [= <-] Hq. cbn [firstn skipn app post_ids].
      rewrite Hq, Hx. cbn [bind]. rewrite Hs. cbn [bind].
      now rewrite Hr.
    + intros Hp Hq.
      change (firstn (S i) (x :: r)) with (x :: firstn i r).
      change (skipn (S (S i)) (x :: r)) with (skipn (S i) r).
      cbn [app post_ids]. rewrite Hx. cbn [bind]. rewrite Hs. cbn [bind].
      now rewrite (IH ids' i eq_refl Hp Hq).
Qed.

(** X9.  [PUT /api/posts/:id] on a store whose ids can be read, for a post
    that is an object and a request that can be read: the handler answers
    with the updated post, which replaces the old one at its place; every
    property of the post other than [title], [content], [blocks],
    [sectionId] and [image] (so its [id] and [date]) is as before; and the
    id texts of the store are as before. *)
Theorem put_api_posts_frame (o e b : object) (l : list value)
  (ids : list string) (postId : string) (i : nat) (file : option string)
  (parsed : value * option string) :
  obj_get "posts" o = Some (JArr l) ->
  post_ids l = Ok ids ->
  first_index (fun s => String.eqb s postId) ids i ->
  nth_error l i = Some (JObj e) ->
  parseBlocksAndPlainTextFromBody (Some (JObj b)) = Ok parsed ->
  (forall v, obj_get "sectionId" b = Some v -> ToBoolean v = true ->
             exists n, parseInt v = Ok n) ->
  exists post,
    put_api_posts parseInt (JObj o) postId (JObj b) file =
    Ok (Done (JObj (obj_set "posts"
                      (JArr (firstn i l ++ JObj post :: skipn (S i) l)) o),
              post)) /\
    (forall k, ~ In k ["title"; "content"; "blocks"; "sectionId"; "image"] ->
               obj_get k post = obj_get k e) /\
    post_ids (firstn i l ++ JObj post :: skipn (S i) l) = Ok ids.
Proof.
  intros Hposts Hids Hi He Hparsed Hsection.
  assert (Hsec : exists newSection,
             (if truthy (obj_get "sectionId" b) then
                match obj_get "sectionId" b with
                | Some v => n <- parseInt v ;; Ok (Some (stored_number n))
                | None => Ok None
                end
              else Ok (obj_get "sectionId" e)) = Ok newSection).
  { destruct (obj_get "sectionId" b) as [v|] eqn:Hv; cbn [truthy].
    - destruct (ToBoolean v) eqn:Ht.
      + destruct (Hsection v eq_refl Ht) as [n ->]. cbn [bind]. eauto.
      + eauto.
    - eauto. }
  destruct Hsec as [newSection Hsec].
  eexists. split.
  { unfold put_api_posts, findPost.
    rewrite member_obj. cbn [bind]. rewrite Hposts.
    pose proof (@findIndexM_post_ids _ l ids postId Hids) as Hfind.
    unfold value in *. rewrite Hfind. cbn [bind].
    rewrite (findIndex_first Hi).
    destruct (Z.eqb_spec (Z.of_nat i) (-1)); [lia|].
    rewrite Nat2Z.id, He, Hparsed. cbn [bind].
    rewrite !member_obj. cbn [bind]. rewrite Hsec. cbn [bind].
    reflexivity. }
  assert (Hframe : forall k post0,
             ~ In k ["title"; "content"; "blocks"; "sectionId"; "image"] ->
             forall x1 x2 x3 x4 x5,
             post0 = obj_set_opt "image" x1
                       (obj_set_opt "sectionId" x2
                          (obj_set "blocks" x3
                             (obj_set_opt "content" x4
                                (obj_set_opt "title" x5 (spread (JObj e)))))) ->
             obj_get k post0 = obj_get k e).
  { intros k post0 Hk x1 x2 x3 x4 x5 ->. simpl in Hk.
    rewrite !obj_get_set_opt_other, obj_get_set_other, !obj_get_set_opt_other
      by (intros ->; tauto).
    reflexivity. }
  split.
  - intros k Hk. eapply Hframe; [exact Hk|reflexivity].
  - eapply post_ids_replace; [exact Hids|exact He|].
    cbn [post_id]. f_equal. eapply Hframe; [|reflexivity].
    simpl. intros [E|[E|[E|[E|[E|[]]]]]]; discriminate E.
Qed.

End PutHandlerFacts.

Section PostMigrationFacts.
Context {H : Host}.
Variable parseInt : value -> outcome (option number).

(** When nothing is parsed out of an object body, its [content], if a
    string, does not parse to an array. *)
Lemma parseBlocks_null (b : object) (plain : option string) s :
  parseBlocksAndPlainTextFromBody (Some (JObj b)) = Ok (JNull, plain) ->
  obj_get "content" b = Some (JStr s) ->
  plain = None /\ isArray (tryParseJson s) = false.
Proof.
  unfold parseBlocksAndPlainTextFromBody. cbn [truthy ToBoolean prop andb].
  set (b1 := if truthy (obj_get "blocks" b) then _ else _).
  intros Hrun Hc. rewrite Hc in Hrun. rewrite andb_true_r in Hrun.
  destruct (ToBoolean b1) eqn:Hb1; cbn [negb] in Hrun.
  - rewrite Hb1 in Hrun.
    destruct (extractPlainTextFromBlocks b1); simpl in Hrun; [|discriminate].
    injection Hrun as E _. rewrite E in Hb1. discriminate.
  - destruct (isArray (tryParseJson s)) eqn:Harr.
    + destruct (tryParseJson s); try discriminate. cbn [ToBoolean] in Hrun.
      destruct (extractPlainTextFromBlocks _); simpl in Hrun; discriminate.
    + rewrite Hb1 in Hrun. injection Hrun as <-. auto.
Qed.

Lemma parseBlocks_null_plain (body : option value) (plain : option string) :
  parseBlocksAndPlainTextFromBody body = Ok (JNull, plain) ->
  plain = None.
Proof.
  unfold parseBlocksAndPlainTextFromBody.
  set (b1 := if truthy body && truthy (prop body "blocks") then _ else _).
  set (b2 := if negb (ToBoolean b1) && truthy body then _ else _).
  destruct (ToBoolean b2) eqn:Hb2.
  - destruct (extractPlainTextFromBlocks b2); simpl; [|discriminate].
    intros [= E _]. rewrite E in Hb2. discriminate.
  - now intros [= <-].
Qed.

Lemma migratePost_null_blocks (post : object) (s : string) :
  obj_get "blocks" post = Some JNull ->
  obj_get "content" post = Some (JStr s) ->
  (startsWith (trim s) "[" = true -> isArray (tryParseJson s) = false) ->
  migratePost post = Ok (false, post).
Proof.
  intros Hb Hc Hs. unfold migratePost. rewrite Hb. cbn [bind].
  rewrite Hb, Hc. destruct (startsWith (trim s) "["); [|reflexivity].
  now rewrite (Hs eq_refl).
Qed.

(** X10.  Posting keeps a migrated store migrated: when migration finds
    nothing to change in the stored document and [POST /api/posts] answers
    with a new post whose [blocks] is an array or [null], then migration
    finds nothing to change in the saved document either. *)
Theorem post_api_posts_keeps_migrated (fuel : nat) (data body : value)
  (file : option string) (defaultId date : string) (data' : value)
  (newPost : object) :
  post_api_posts parseInt fuel data body file defaultId date
  = Some (Ok (data', newPost)) ->
  migratePostsIfNeeded data = Ok (false, data) ->
  (exists l, obj_get "blocks" newPost = Some (JArr l)) \/
  obj_get "blocks" newPost = Some JNull ->
  migratePostsIfNeeded data' = Ok (false, data').
Proof.
  unfold post_api_posts. intros Hrun Hmig Hblocks.
  destruct (parseBlocksAndPlainTextFromBody (Some body)) as [parsed|] eqn:Hparsed;
    cbn [bind] in Hrun; [|discriminate].
  destruct (member body "id") as [idv|]; cbn [bind] in Hrun; [|discriminate].
  destruct (match idv with
            | Some _ => s <- String_ idv ;; Ok (trim s)
            | None => Ok ""
            end) as [raw|]; cbn [bind] in Hrun; [|discriminate].
  destruct (member data "posts") as [posts|] eqn:Hposts; cbn [bind] in Hrun;
    [|discriminate].
  destruct (posts_or_empty posts) as [existing|]; cbn [bind] in Hrun;
    [|discriminate].
  destruct (ensureUniqueId fuel _ existing) as [[id|]|]; try discriminate.
  destruct (member body "title") as [title|]; cbn [bind] in Hrun;
    [|discriminate].
  destruct (member body "content") as [content|] eqn:Hcontent;
    cbn [bind] in Hrun; [|discriminate].
  destruct (member body "sectionId") as [sectionId|]; cbn [bind] in Hrun;
    [|discriminate].
  destruct (match sectionId with
            | Some v => parseInt v
            | None => Ok None
            end) as [n|]; cbn [bind] in Hrun; [|discriminate].
  destruct data as [| | | | |o]; try discriminate.
  destruct posts as [[| | | |l|]|]; try discriminate.
  injection Hrun as Hdata Hnew. subst data'. rewrite Hnew.
  rewrite member_obj in Hposts. injection Hposts as Hposts.
  (* the new post needs no migration *)
  assert (Hstable : migratePost newPost = Ok (false, newPost)).
  { destruct Hblocks as [[bl Hbl]|Hnull].
    - eapply migratePost_canonical; eauto.
    - assert (Hfst : fst parsed = JNull).
      { rewrite <- Hnew in Hnull. simpl in Hnull. congruence. }
      destruct parsed as [blocks plain]. simpl in Hfst. subst blocks.
      pose proof (parseBlocks_null_plain _ Hparsed) as ->.
      destruct content as [[| | |s| |]|];
        try (rewrite <- Hnew; reflexivity).
      destruct body as [| | | | |b]; try discriminate.
      rewrite member_obj in Hcontent. injection Hcontent as Hcontent.
      destruct (parseBlocks_null _ Hparsed Hcontent) as [_ Hnot].
      apply (@migratePost_null_blocks newPost s); auto;
        rewrite <- Hnew; reflexivity. }
  clear Hnew.
  (* the stored posts are objects that need none *)
  unfold migratePostsIfNeeded in Hmig. cbn [spread] in Hmig.
  destruct (migrateLoop (copyPosts o) false) as [[c ps]|] eqn:Hloop;
    simpl in Hmig; [|discriminate].
  injection Hmig as -> Ho.
  assert (Hl : l = map (@JObj number) ps).
  { apply (f_equal (obj_get "posts")) in Ho.
    rewrite obj_get_set_same, Hposts in Ho. congruence. }
  apply migrateLoop_fixed in Hloop.
  unfold migratePostsIfNeeded. cbn [spread]. unfold copyPosts.
  rewrite obj_get_set_same. subst l.
  replace (map (@JObj number) ps ++ [JObj newPost])
    with (map (@JObj number) (ps ++ [newPost]))
    by (now rewrite map_app).
  rewrite spread_JObj.
  rewrite (@migrateLoop_stable _ (ps ++ [newPost]) false).
  - simpl. now rewrite obj_set_set_same.
  - apply Forall_app. split; auto.
Qed.

End PostMigrationFacts.

(** ** Sections and the post listing *)

Section SectionFacts.
Context {H : Host}.
Variable parseInt : value -> outcome (option number).
Variable Number_eqb : number -> number -> bool.

Lemma filterM_kept {A} (p : A -> outcome bool) l r :
  filterM p l = Ok r -> forall x, In x r -> p x = Ok true.
Proof.
  revert r. induction l as [|y l IH]; intros r; simpl.
  - intros [= <-] x [].
  - destruct (p y) as [b|] eqn:Hy; simpl; [|discriminate].
    destruct (filterM p l) as [r'|]; simpl; [|discriminate].
    intros [= <-] x Hx. destruct b.
    + destruct Hx as [<-|Hx]; [exact Hy|]. eapply IH; eauto.
    + eapply IH; eauto.
Qed.

Lemma filterM_none {A} (p : A -> outcome bool) l :
  (forall x, In x l -> p x = Ok false) -> filterM p l = Ok [].
Proof.
  induction l as [|y l IH]; intros Hp; simpl; [reflexivity|].
  rewrite (Hp y (or_introl eq_refl)). simpl.
  rewrite IH by (intros; apply Hp; now right). reflexivity.
Qed.

Lemma index_keys_no_sectionId n (l : list value) :
  obj_get "sectionId" (index_keys n l) = None.
Proof.
  revert n. induction l as [|v r IH]; intros n; simpl; [reflexivity|].
  rewrite IH. unfold decimal.
  destruct (Nat.to_uint n); reflexivity.
Qed.

(** Copying a post keeps what reading its [sectionId] gives. *)
Lemma spread_sectionId (p : value) i :
  member p "sectionId" = Ok i -> obj_get "sectionId" (spread p) = i.
Proof.
  destruct p; simpl; try discriminate; intros [= <-];
    auto using index_keys_no_sectionId.
Qed.

Lemma Forall2_In_r {A B} (R : A -> B -> Prop) l l' y :
  Forall2 R l l' -> In y l' -> exists x, In x l /\ R x y.
Proof.
  induction 1 as [|a b l l' Hab _ IH]; intros Hin; [destruct Hin|].
  destruct Hin as [<-|Hin].
  - exists a. split; [now left|exact Hab].
  - destruct (IH Hin) as (x & Hx & Hxy). exists x. split; [now right|exact Hxy].
Qed.

(** X11.  Deleting a section takes its posts with it: once
    [DELETE /api/sections/:id] has saved a document, [GET /api/posts] asked
    for the same section number never lists a post. *)
Theorem delete_api_sections_cascades (data data1 : value)
  (sectionId : option number) (q : value) (saved : option value)
  (listed : list value) :
  delete_api_sections Number_eqb data sectionId = Ok data1 ->
  ToBoolean q = true ->
  parseInt q = Ok sectionId ->
  get_api_posts parseInt Number_eqb data1 (Some q) = Ok (saved, listed) ->
  listed = [].
Proof.
  unfold delete_api_sections. intros Hdel Hq Hparse Hget.
  destruct (member data "sections") as [sections|]; cbn [bind] in Hdel;
    [|discriminate].
  destruct (filter_array sections _) as [sections'|]; cbn [bind] in Hdel;
    [|discriminate].
  destruct (member data "posts") as [posts|]; cbn [bind] in Hdel;
    [|discriminate].
  destruct (filter_array posts _) as [posts'|] eqn:Hfilter;
    cbn [bind] in Hdel; [|discriminate].
  destruct data as [| | | | |o]; try discriminate.
  injection Hdel as <-.
  assert (Hkept : forall p, In p posts' ->
            is_number Number_eqb (obj_get "sectionId" (spread p)) sectionId
            = false).
  { intros p Hp. destruct posts as [[| | | |l|]|]; try discriminate.
    simpl in Hfilter. pose proof (filterM_kept _ _ Hfilter p Hp) as Hpred.
    simpl in Hpred.
    destruct (member p "sectionId") as [i|] eqn:Hi; simpl in Hpred;
      [|discriminate].
    rewrite (spread_sectionId _ Hi).
    injection Hpred as Hpred. now apply negb_true_iff in Hpred. }
  clear Hfilter.
  unfold get_api_posts, migratePostsIfNeeded in Hget. cbn [spread] in Hget.
  unfold copyPosts in Hget. rewrite obj_get_set_same in Hget.
  destruct (migrateLoop (map spread posts') false) as [[c ps]|] eqn:Hloop;
    cbn [bind] in Hget; [|discriminate].
  rewrite member_obj in Hget. cbn [bind] in Hget.
  rewrite obj_set_set_same, obj_get_set_same in Hget.
  cbn [truthy ToBoolean bind] in Hget. rewrite Hq in Hget.
  apply migrateLoop_frame in Hloop.
  rewrite filterM_none in Hget.
  - cbn [bind] in Hget. now injection Hget as _ <-.
  - intros x Hx. apply in_map_iff in Hx. destruct Hx as (p' & <- & Hp').
    rewrite member_obj. cbn [bind]. rewrite Hparse. cbn [bind].
    destruct (Forall2_In_r _ Hloop Hp') as (sp & Hsp & Hframe).
    apply in_map_iff in Hsp. destruct Hsp as (p & <- & Hp).
    rewrite Hframe by discriminate. now rewrite Hkept.
Qed.

End SectionFacts.

(** ** Image addresses *)

Section ConfigFacts.
Context {H : Host}.

Lemma prefix_append (p b u : string) :
  String.prefix p b = true -> String.prefix p (b ++ u) = true.
Proof.
  revert b. induction p as [|c p IH]; intros b;
    [intros _; now destruct (b ++ u)%string|].
  destruct b as [|d b]; simpl; [discriminate|].
  destruct (ascii_dec c d); [apply IH|discriminate].
Qed.

Lemma isCompleteURL_append (b u : string) :
  isCompleteURL b = true -> isCompleteURL (b ++ u) = true.
Proof.
  unfold isCompleteURL, startsWith. intros Hp.
  repeat (apply orb_true_iff in Hp; destruct Hp as [Hp|Hp]);
    apply (prefix_append _ _ u) in Hp; rewrite Hp;
    rewrite ?orb_true_r; reflexivity.
Qed.

Lemma append_nonempty (b s : string) :
  String.eqb s "" = false -> String.eqb (b ++ s) "" = false.
Proof.
  intros Hs. destruct b; [exact Hs|reflexivity].
Qed.

Lemma image_url_idempotent (base : string) (url : option value) (r : string) :
  isCompleteURL base = true ->
  (if negb (truthy url) then Ok ""
   else match url with
        | Some (JStr s) =>
            if isCompleteURL s then Ok s
            else if startsWith s "/uploads/" then Ok (base ++ s)%string
            else Ok s
        | _ => TypeError
        end) = Ok r ->
  (if negb (truthy (Some (JStr r))) then Ok ""
   else if isCompleteURL r then Ok r
        else if startsWith r "/uploads/" then Ok (base ++ r)%string
        else Ok r) = Ok r.
Proof.
  intros Hbase. destruct (truthy url) eqn:Ht; cbn [negb].
  - destruct url as [[| | |s| |]|]; try discriminate.
    cbn [truthy ToBoolean] in *.
    destruct (isCompleteURL s) eqn:Hs.
    + intros [= <-]. now rewrite Ht, Hs.
    + destruct (startsWith s "/uploads/") eqn:Hu; intros [= <-].
      * apply negb_true_iff in Ht.
        rewrite (append_nonempty base _ Ht). cbn [negb].
        now rewrite (isCompleteURL_append _ s Hbase).
      * now rewrite Ht, Hs, Hu.
  - now intros [= <-].
Qed.

(** X12.  [getImageURL] is idempotent wherever the base URL is itself a
    complete URL (in a browser always; under Node when [API_BASE_URL] is
    unset, empty or complete): the address it returns is returned unchanged
    when it is passed through again, so an address is never prefixed
    twice. *)
Theorem getImageURL_idempotent (env : environment) (url : option value)
  (r : string) :
  isCompleteURL (getBaseURL env) = true ->
  getImageURL env url = Ok r ->
  getImageURL env (Some (JStr r)) = Ok r.
Proof.
  intros Hbase Hrun. unfold getImageURL in *.
  exact (image_url_idempotent _ _ Hbase Hrun).
Qed.

(** X13.  In the admin bundle the base URL is one of the two constants, so
    its [getImageURL] is idempotent without condition. *)
Theorem admin_getImageURL_idempotent (hostname : string)
  (url : option value) (r : string) :
  admin_getImageURL hostname url = Ok r ->
  admin_getImageURL hostname (Some (JStr r)) = Ok r.
Proof.
  intros Hrun. unfold admin_getImageURL in *.
  refine (image_url_idempotent _ _ _ Hrun).
  unfold admin_getBaseURL.
  destruct (_ || _); reflexivity.
Qed.

End ConfigFacts.

(** ** Editing a block list *)

Section BlockListFacts.
Variables Block Id : Type.
Variable block_id : Block -> Id.
Variable Id_eqb : Id -> Id -> bool.
Hypothesis Id_eqb_spec : forall a b, Id_eqb a b = true <-> a = b.
Implicit Types (l : list Block) (id : Id).

Lemma Id_eqb_refl id : Id_eqb id id = true.
Proof. now apply Id_eqb_spec. Qed.

Lemma Id_eqb_absent l id b :
  ~ In id (map block_id l) -> In b l -> Id_eqb (block_id b) id = false.
Proof.
  intros Hout Hb. destruct (Id_eqb (block_id b) id) eqn:E; [|reflexivity].
  apply Id_eqb_spec in E. exfalso. apply Hout. rewrite <- E.
  now apply in_map.
Qed.

(** X14.  [updateBlock] keeps the length of the list; an id that no block
    has leaves the list as it is; when the new block keeps the id, the ids
    of the list and their order are as before; and when the ids are pairwise
    distinct, exactly the block at the position of the id is replaced. *)
Theorem updateBlock_replaces l id (updated : Block) :
  List.length (updateBlock block_id Id_eqb l id updated) = List.length l /\
  (~ In id (map block_id l) -> updateBlock block_id Id_eqb l id updated = l) /\
  (block_id updated = id ->
   map block_id (updateBlock block_id Id_eqb l id updated) = map block_id l) /\
  (forall i b, NoDup (map block_id l) -> nth_error l i = Some b ->
     block_id b = id ->
     updateBlock block_id Id_eqb l id updated
     = firstn i l ++ updated :: skipn (S i) l).
Proof.
  unfold updateBlock. split; [apply length_map|]. split; [|split].
  - intros Hout. rewrite <- (map_id l) at 2. apply map_ext_in.
    intros b Hb. now rewrite (@Id_eqb_absent l id b Hout Hb).
  - intros Hid. rewrite map_map. apply map_ext. intros b.
    destruct (Id_eqb (block_id b) id) eqn:E; [|reflexivity].
    apply Id_eqb_spec in E. congruence.
  - intros i b Hnd Hb Hid.
    destruct (nth_error_split _ _ Hb) as (l1 & l2 & -> & <-).
    rewrite map_app in Hnd. simpl in Hnd.
    pose proof (NoDup_remove_2 _ _ _ Hnd) as Hout.
    rewrite firstn_app, Nat.sub_diag, firstn_all, app_nil_r.
    rewrite skipn_app, skipn_all2 by lia.
    replace (S (List.length l1) - List.length l1) with 1 by lia.
    rewrite map_app. simpl. rewrite Hid, Id_eqb_refl. f_equal; [|f_equal].
    + rewrite <- (map_id l1) at 2. apply map_ext_in. intros x Hx.
      rewrite (@Id_eqb_absent (l1 ++ l2) id x); [reflexivity| |].
      * rewrite map_app, <- Hid. exact Hout.
      * apply in_or_app. now left.
    + rewrite <- (map_id l2) at 2. apply map_ext_in. intros x Hx.
      rewrite (@Id_eqb_absent (l1 ++ l2) id x); [reflexivity| |].
      * rewrite map_app, <- Hid. exact Hout.
      * apply in_or_app. now right.
Qed.

(** X15.  After [deleteBlock] no block has the id; an id that no block has
    leaves the list as it is; and when the ids are pairwise distinct,
    exactly the block at the position of the id is taken out. *)
Theorem deleteBlock_removes l id :
  ~ In id (map block_id (deleteBlock block_id Id_eqb l id)) /\
  (~ In id (map block_id l) -> deleteBlock block_id Id_eqb l id = l) /\
  (forall i b, NoDup (map block_id l) -> nth_error l i = Some b ->
     block_id b = id ->
     deleteBlock block_id Id_eqb l id = removeAt i l).
Proof.
  unfold deleteBlock.
  assert (Habsent : forall l', ~ In id (map block_id l') ->
            filter (fun b => negb (Id_eqb (block_id b) id)) l' = l').
  { intros l' Hout. induction l' as [|x r IH]; simpl; [reflexivity|].
    rewrite (@Id_eqb_absent (x :: r) id x Hout (or_introl eq_refl)). simpl.
    rewrite IH; [reflexivity|]. intros Hin. apply Hout. now right. }
  split; [|split].
  - intros Hin. apply in_map_iff in Hin. destruct Hin as (b & Hb & Hin).
    apply filter_In in Hin. destruct Hin as [_ Hkeep].
    rewrite <- Hb, Id_eqb_refl in Hkeep. discriminate.
  - apply Habsent.
  - intros i b Hnd Hb Hid.
    destruct (nth_error_split _ _ Hb) as (l1 & l2 & -> & <-).
    rewrite map_app in Hnd. simpl in Hnd.
    pose proof (NoDup_remove_2 _ _ _ Hnd) as Hout.
    rewrite removeAt_split, filter_app. simpl.
    rewrite Hid, Id_eqb_refl. simpl.
    rewrite !Habsent; [reflexivity| |];
      intros Hin; apply Hout; rewrite Hid; apply in_or_app; auto.
Qed.

(** X16.  How a grid edits one child through the one-block list it renders
    for it: deleting the child there takes exactly that child out of the
    grid, and updating it there puts the new block at its place; the other
    children stay as they are. *)
Theorem GridBlock_setChild_edits (children : list Block) (i : nat)
  (child : Block) :
  nth_error children i = Some child ->
  GridBlock_setChild children i
    (deleteBlock block_id Id_eqb [child] (block_id child))
  = Some (removeAt i children) /\
  (forall updated,
     GridBlock_setChild children i
       (updateBlock block_id Id_eqb [child] (block_id child) updated)
     = Some (firstn i children ++ updated :: skipn (S i) children)).
Proof.
  intros Hchild.
  assert (Hi : i < List.length children)
    by (apply nth_error_Some; congruence).
  split.
  - assert (Hdel : deleteBlock block_id Id_eqb [child] (block_id child) = []).
    { unfold deleteBlock. cbn [filter]. now rewrite Id_eqb_refl. }
    rewrite Hdel. unfold GridBlock_setChild.
    now rewrite (@splice_remove_one _ children i child Hchild).
  - intros updated. unfold updateBlock. simpl. rewrite Id_eqb_refl.
    unfold array_write.
    destruct (Nat.leb_spec i (List.length children)); [reflexivity|lia].
Qed.

End BlockListFacts.

(** ** Columns, the editor's start and unique ids *)

Section MoreEditorFacts.
Context {H : Host}.

Lemma createBlock_returns (fresh : number) (type : string) :
  exists block, createBlock fresh type = Ok block.
Proof.
  unfold createBlock.
  repeat match goal with
         | |- context [if ?b then _ else _] => destruct b
         end; eauto.
Qed.

Lemma array_write_inside {T} (l : list T) i v :
  i < List.length l ->
  array_write l i v = Some (firstn i l ++ v :: skipn (S i) l) /\
  List.length (firstn i l ++ v :: skipn (S i) l) = List.length l.
Proof.
  intros Hi. unfold array_write.
  destruct (Nat.leb_spec i (List.length l)); [|lia].
  split; [reflexivity|].
  rewrite length_app, length_firstn. cbn [List.length].
  rewrite length_skipn. lia.
Qed.

Lemma Forall_write {T} (P : T -> Prop) (l : list T) i v :
  Forall P l -> P v -> Forall P (firstn i l ++ v :: skipn (S i) l).
Proof.
  intros Hl Hv. revert i. induction Hl as [|x l Hx Hl IH]; intros i.
  - destruct i; simpl; auto.
  - destruct i as [|i].
    + simpl. constructor; auto.
    + change (firstn (S i) (x :: l)) with (x :: firstn i l).
      change (skipn (S (S i)) (x :: l)) with (skipn (S i) l).
      simpl. constructor; auto.
Qed.

(** X17.  The shape of a columns block is an invariant of the editor: the
    block that [createBlock] makes has it, and the column-count selector,
    [updateColumn] with an array and [addToColumn], at a column that is
    there, each hand on a block that has it: [children] is an array of
    arrays and [columns] is their number. *)
Theorem columns_ok_invariant :
  (forall fresh, exists block,
      createBlock fresh "columns" = Ok block /\ columns_ok block) /\
  (forall block cols, columns_ok block ->
     exists block',
       ColumnsBlock_onChange block cols = Ok block' /\ columns_ok block') /\
  (forall block ch idx newChildren,
     columns_ok block -> obj_get "children" block = Some (JArr ch) ->
     idx < List.length ch -> isArray newChildren = true ->
     exists block',
       ColumnsBlock_updateColumn block idx newChildren = Some (Ok block') /\
       columns_ok block') /\
  (forall block ch idx type fresh,
     columns_ok block -> obj_get "children" block = Some (JArr ch) ->
     idx < List.length ch ->
     exists block',
       ColumnsBlock_addToColumn block idx type fresh = Some (Ok block') /\
       columns_ok block').
Proof.
  split; [|split; [|split]].
  - intros fresh. eexists. split; [reflexivity|].
    exists [JArr []; JArr []]. repeat split; repeat constructor.
  - intros block cols (ch & Hch & Harr & _).
    eexists. split.
    { unfold ColumnsBlock_onChange. rewrite Hch.
      erewrite (forEach_collect
                  (fun i => x <- js_index (Some (JArr ch)) i ;; Ok (orEmpty x))
                  (fun i => orEmpty (nth_error ch i)));
        [reflexivity|reflexivity]. }
    exists (map (fun i => orEmpty (nth_error ch i)) (seq 0 cols)).
    split; [apply obj_get_set_same|]. split.
    + apply Forall_forall. intros col Hcol. apply in_map_iff in Hcol.
      destruct Hcol as (i & <- & _).
      destruct (nth_error ch i) as [v|] eqn:Hv; [|reflexivity].
      rewrite Forall_forall in Harr.
      specialize (Harr v (nth_error_In _ _ Hv)).
      destruct v; try discriminate. reflexivity.
    + rewrite obj_get_set_other by discriminate.
      rewrite obj_get_set_same. now rewrite length_map, length_seq.
  - intros block ch idx newChildren (ch0 & Hch0 & Harr & Hcount) Hch Hidx Hnew.
    assert (ch0 = ch) by congruence. subst ch0.
    destruct (array_write_inside ch newChildren Hidx) as [Hw Hlen].
    eexists. split.
    { unfold ColumnsBlock_updateColumn. rewrite Hch. cbn [iterate].
      unfold value in *. rewrite Hw. reflexivity. }
    eexists. split; [apply obj_get_set_same|]. split.
    + now apply Forall_write.
    + rewrite obj_get_set_other by discriminate. now rewrite Hlen.
  - intros block ch idx type fresh (ch0 & Hch0 & Harr & Hcount) Hch Hidx.
    assert (ch0 = ch) by congruence. subst ch0.
    destruct (nth_error ch idx) as [col|] eqn:Hcol;
      [|apply nth_error_None in Hcol; lia].
    assert (Hcolarr : isArray col = true).
    { rewrite Forall_forall in Harr. apply Harr. eapply nth_error_In; eauto. }
    destruct col as [| | | |bl|]; try discriminate.
    destruct (createBlock_returns fresh type) as [created Hcreated].
    destruct (array_write_inside ch (JArr (bl ++ [JObj created])) Hidx)
      as [Hw Hlen].
    eexists. split.
    { unfold ColumnsBlock_addToColumn. rewrite Hch. cbn [iterate bind].
      unfold value in *. rewrite Hcol. cbn [iterate bind].
      rewrite Hcreated. cbn [bind]. rewrite Hw. reflexivity. }
    eexists. split; [apply obj_get_set_same|]. split.
    + now apply Forall_write.
    + rewrite obj_get_set_other by discriminate. now rewrite Hlen.
Qed.



(** X19.  [ensureUniqueId] is idempotent: the id it returns is returned
    unchanged when it is asked for again on the same posts, at the first
    test of the loop. *)
Theorem ensureUniqueId_idempotent (fuel : nat) (baseId : string)
  (posts : list value) (id : string) :
  ensureUniqueId fuel baseId posts = Some (Ok id) ->
  forall fuel', 0 < fuel' -> ensureUniqueId fuel' id posts = Some (Ok id).
Proof.
  unfold ensureUniqueId. intros Hrun fuel' Hfuel.
  apply ensureUniqueId_loop_free in Hrun.
  destruct fuel' as [|fuel']; [lia|]. simpl. now rewrite Hrun.
Qed.

(** X20.  When the id of some stored post cannot be read or converted to a
    string, [ensureUniqueId] never returns an id, whatever the fuel. *)
Theorem ensureUniqueId_unreadable (fuel : nat) (baseId : string)
  (posts : list value) (id : string) :
  post_ids posts = TypeError ->
  ensureUniqueId fuel baseId posts <> Some (Ok id).
Proof.
  intros Hbad Hrun. unfold ensureUniqueId in Hrun.
  apply ensureUniqueId_loop_free, hasId_false_ids in Hrun.
  destruct Hrun as (ids & Hids & _). congruence.
Qed.

End MoreEditorFacts.

(** * The further properties on the concrete inputs *)

Section MoreWitnesses.
Import Examples HandlerExamples.
#[local] Existing Instance Reference.host.

Lemma extractPlainText_returns_witness :
  no_toString (JArr [JObj grid_AB]) = true /\
  exists text, extractPlainTextFromBlocks (JArr [JObj grid_AB]) = Ok text.
Proof.
  assert (Hsafe : no_toString (JArr [JObj grid_AB]) = true) by reflexivity.
  split; [exact Hsafe|].
  exact (@extractPlainText_returns Reference.host _ Hsafe).
Defined.

Lemma extractPlainText_containers_witness :
  extractPlainTextFromBlocks (JArr ([paragraph_B] ++ JObj grid_AB :: [])) =
  extractPlainTextFromBlocks
    (JArr ([paragraph_B] ++ [heading_A; paragraph_B] ++ [])).
Proof.
  apply (@extractPlainText_containers Reference.host grid_AB
           [heading_A; paragraph_B] [paragraph_B] []).
  right. split; reflexivity.
Defined.

Lemma migratePostsIfNeeded_changed_exact_witness :
  document store [post_a; post_b] /\
  (false = false <-> JObj store = JObj store).
Proof.
  assert (Hdoc : document store [post_a; post_b]) by reflexivity.
  split; [exact Hdoc|].
  apply (@migratePostsIfNeeded_changed_exact Reference.host store
           [post_a; post_b] false (JObj store) Hdoc).
  vm_compute. reflexivity.
Defined.

Lemma parseBlocksAndPlainTextFromBody_contract_witness :
  parseBlocksAndPlainTextFromBody (Some (JObj request))
  = Ok (JArr [paragraph_hi], Some "hi") /\
  (Some "hi" = None <-> JArr [paragraph_hi] = JNull).
Proof.
  assert (Hrun : parseBlocksAndPlainTextFromBody (Some (JObj request))
                 = Ok (JArr [paragraph_hi], Some "hi"))
    by (vm_compute; reflexivity).
  split; [exact Hrun|].
  exact (proj1 (@parseBlocksAndPlainTextFromBody_contract Reference.host
                  _ _ _ Hrun)).
Defined.

Lemma post_api_posts_appends_witness :
  exists id newPost,
    post_api_posts parseInt 3 (JObj store) (JObj request) None
      "2024-02-01" "2024-02-01"
    = Some (Ok (JObj (obj_set "posts"
                        (JArr ([JObj post_a; JObj post_b] ++ [JObj newPost]))
                        store), newPost)) /\
    obj_get "id" newPost = Some (JStr id) /\
    ~ In id ["a"; "b"].
Proof.
  destruct (@post_api_posts_appends Reference.host parseInt 3 store request
              [JObj post_a; JObj post_b] ["a"; "b"] None
              "2024-02-01" "2024-02-01"
              (JArr [paragraph_hi], Some "hi") "a" (Some 2%Z))
    as (id & newPost & Hrun & Hid & Hfree & _);
    try (vm_compute; reflexivity).
  exists id, newPost. auto.
Defined.

Lemma delete_api_posts_removes_witness :
  exists unlink,
    delete_api_posts (JObj store) "a" =
    Ok (Done (JObj (obj_set "posts" (JArr (removeAt 0 [JObj post_a; JObj post_b]))
                      store), unlink)).
Proof.
  destruct (@delete_api_posts_removes Reference.host store
              [JObj post_a; JObj post_b] ["a"; "b"] "a")
    as [_ Hfound]; try reflexivity.
  destruct (Hfound 0 post_a) as (unlink & Hrun & _).
  - split; [exists "a"; split; reflexivity|]. intros k y Hk. lia.
  - reflexivity.
  - intros v Hv _. injection Hv as <-. eauto.
  - exists unlink. exact Hrun.
Defined.

Lemma post_then_delete_witness :
  exists data' newPost id,
    posted = Some (Ok (data', newPost)) /\
    obj_get "id" newPost = Some (JStr id) /\
    delete_api_posts data' id = Ok (Done (JObj store, Some "/uploads/9.png")).
Proof.
  unfold posted. eexists. eexists.
  assert (Hrun : post_api_posts parseInt 3 (JObj store) (JObj request)
                   (Some "9.png") "2024-02-01" "2024-02-01" = posted)
    by (vm_compute; reflexivity).
  unfold posted in Hrun.
  destruct (@post_then_delete Reference.host parseInt _ _ _ _ _ _ _ _ Hrun)
    as (id & Hid & Hdel).
  exists id. split; [reflexivity|]. split; [exact Hid|exact Hdel].
Defined.

Lemma put_api_posts_frame_witness :
  exists post,
    put_api_posts parseInt (JObj store) "b" (JObj request) None =
    Ok (Done (JObj (obj_set "posts"
                      (JArr (firstn 1 [JObj post_a; JObj post_b] ++ JObj post
                               :: skipn 2 [JObj post_a; JObj post_b])) store),
              post)) /\
    obj_get "id" post = obj_get "id" post_b /\
    obj_get "date" post = obj_get "date" post_b.
Proof.
  destruct (@put_api_posts_frame Reference.host parseInt store post_b request
              [JObj post_a; JObj post_b] ["a"; "b"] "b" 1 None
              (JArr [paragraph_hi], Some "hi"))
    as (post & Hrun & Hframe & _); try (vm_compute; reflexivity).
  - split; [exists "b"; split; reflexivity|].
    intros [|k] y Hk Hy; [injection Hy as <-; reflexivity|lia].
  - intros v Hv _. injection Hv as <-. exists (Some 2%Z). reflexivity.
  - exists post. split; [exact Hrun|].
    split; apply Hframe; simpl; intros [E|[E|[E|[E|[E|[]]]]]]; discriminate E.
Defined.

Lemma post_api_posts_keeps_migrated_witness :
  exists data' newPost,
    posted = Some (Ok (data', newPost)) /\
    migratePostsIfNeeded data' = Ok (false, data').
Proof.
  unfold posted. eexists. eexists. split; [reflexivity|].
  eapply (@post_api_posts_keeps_migrated Reference.host parseInt 3
            (JObj store) (JObj request) (Some "9.png")
            "2024-02-01" "2024-02-01").
  - vm_compute. reflexivity.
  - vm_compute. reflexivity.
  - left. eexists. reflexivity.
Defined.

Lemma delete_api_sections_cascades_witness :
  exists data1 saved listed,
    store_without_2 = Ok data1 /\
    get_api_posts parseInt Z.eqb data1 (Some (JStr "2")) = Ok (saved, listed) /\
    listed = [].
Proof.
  unfold store_without_2. eexists. exists None, [].
  split; [reflexivity|]. split; [vm_compute; reflexivity|].
  eapply (@delete_api_sections_cascades Reference.host parseInt Z.eqb
            (JObj store) _ (Some 2%Z) (JStr "2") None []).
  - vm_compute. reflexivity.
  - reflexivity.
  - vm_compute. reflexivity.
  - vm_compute. reflexivity.
Defined.

Lemma getImageURL_idempotent_witness :
  getImageURL (Browser "example.org") (Some (JStr "/uploads/1.png"))
  = Ok "https://mycms-tycq.onrender.com/uploads/1.png" /\
  getImageURL (Browser "example.org")
    (Some (JStr "https://mycms-tycq.onrender.com/uploads/1.png"))
  = Ok "https://mycms-tycq.onrender.com/uploads/1.png".
Proof.
  assert (Hrun : getImageURL (Browser "example.org")
                   (Some (JStr "/uploads/1.png"))
                 = Ok "https://mycms-tycq.onrender.com/uploads/1.png")
    by reflexivity.
  split; [exact Hrun|].
  exact (@getImageURL_idempotent Reference.host (Browser "example.org") _ _
           eq_refl Hrun).
Defined.

Lemma admin_getImageURL_idempotent_witness :
  admin_getImageURL "localhost"
    (Some (JStr "http://localhost:4000/uploads/1.png"))
  = Ok "http://localhost:4000/uploads/1.png".
Proof.
  apply (@admin_getImageURL_idempotent Reference.host "localhost"
           (Some (JStr "/uploads/1.png"))).
  reflexivity.
Defined.

Lemma updateBlock_replaces_witness :
  List.length (updateBlock self_id String.eqb abc "z" "y") = List.length abc /\
  updateBlock self_id String.eqb abc "z" "y" = abc.
Proof.
  destruct (@updateBlock_replaces string string self_id String.eqb
              String.eqb_eq abc "z" "y") as (Hlen & Habsent & _).
  split; [exact Hlen|]. apply Habsent.
  simpl. intros [E|[E|[E|[]]]]; discriminate E.
Defined.

Lemma deleteBlock_removes_witness :
  deleteBlock self_id String.eqb abc "b" = removeAt 1 abc.
Proof.
  destruct (@deleteBlock_removes string string self_id String.eqb
              String.eqb_eq abc "b") as (_ & _ & Hpos).
  apply (Hpos 1 "b"); try reflexivity.
  repeat constructor; simpl; intuition discriminate.
Defined.

Lemma GridBlock_setChild_edits_witness :
  GridBlock_setChild abc 1 (deleteBlock self_id String.eqb ["b"] "b")
  = Some (removeAt 1 abc).
Proof.
  exact (proj1 (@GridBlock_setChild_edits string string self_id String.eqb
                  String.eqb_eq abc 1 "b" eq_refl)).
Defined.

Lemma columns_ok_invariant_witness :
  columns_ok two_columns /\
  exists block',
    ColumnsBlock_addToColumn two_columns 1 "heading" 8%Z = Some (Ok block') /\
    columns_ok block'.
Proof.
  assert (Hok : columns_ok two_columns).
  { eexists. split; [reflexivity|]. split; [repeat constructor|reflexivity]. }
  split; [exact Hok|].
  destruct (@columns_ok_invariant Reference.host) as (_ & _ & _ & Hadd).
  apply (Hadd two_columns _ 1 "heading" 8%Z Hok eq_refl).
  simpl. lia.
Defined.


Lemma ensureUniqueId_idempotent_witness :
  ensureUniqueId 5 "x" three_posts = Some (Ok "x-3") /\
  ensureUniqueId 1 "x-3" three_posts = Some (Ok "x-3").
Proof.
  assert (Hrun : ensureUniqueId 5 "x" three_posts = Some (Ok "x-3"))
    by (vm_compute; reflexivity).
  split; [exact Hrun|].
  apply (@ensureUniqueId_idempotent Reference.host 5 "x" three_posts "x-3" Hrun).
  lia.
Defined.

Lemma ensureUniqueId_unreadable_witness :
  post_ids broken_posts = TypeError /\
  ensureUniqueId 5 "z" broken_posts <> Some (Ok "z").
Proof.
  assert (Hbad : post_ids broken_posts = TypeError) by reflexivity.
  split; [exact Hbad|].
  exact (@ensureUniqueId_unreadable Reference.host 5 "z" broken_posts "z" Hbad).
Defined.

End MoreWitnesses.
